(** * Auto-save and local file management of the Markdown editor

    A shallow embedding of
      - [src/core/editor/auto-save.js]   (class [AutoSaveManager]), and
      - [src/composables/editor/useEditor.js] (the [fileManager] object and
        [initAutoSave] of [useMarkdownEditor]),
    and of the script of the file-list component, together with the host
    facilities they call: [localStorage], the interval timers, the clock,
    the console, and the objects of [JSON.parse] with the properties they
    inherit from [Object.prototype].

    JavaScript code is written in a state-and-exception monad [JS] over the
    record [World]; a call either completes normally or throws, and the
    effects performed before a throw stay in the world. *)

From Stdlib Require Import ZArith NArith List Bool Ascii String DecimalString.
From stdpp Require Import base option list gmap fin_maps.

(** ** Strings

    A JavaScript string is a sequence of UTF-16 code units. *)

Module JSString.

Local Open Scope N_scope.

Abbreviation code_unit := N.
Abbreviation t := (list N).

(** ASCII literals, for writing inputs. *)
Definition of_ascii (s : string) : t :=
  map N_of_ascii (list_ascii_of_string s).

(** [WhiteSpace] and [LineTerminator] of ECMA-262, the code units that
    [String.prototype.trim] strips. *)
Definition is_white_space (c : code_unit) : bool :=
  (c =? 0x0009) || (c =? 0x000B) || (c =? 0x000C) || (c =? 0x0020)
  || (c =? 0x00A0) || (c =? 0xFEFF) || (c =? 0x1680)
  || ((0x2000 <=? c) && (c <=? 0x200A))
  || (c =? 0x202F) || (c =? 0x205F) || (c =? 0x3000)
  || (c =? 0x000A) || (c =? 0x000D) || (c =? 0x2028) || (c =? 0x2029).

Fixpoint trimStart (s : t) : t :=
  match s with
  | c :: s' => if is_white_space c then trimStart s' else s
  | [] => []
  end.

Definition trimEnd (s : t) : t := rev (trimStart (rev s)).

(** [s.trim()] *)
Definition trim (s : t) : t := trimEnd (trimStart s).

(** Truthiness of a string value: only the empty string is falsy. *)
Definition truthy (s : t) : bool :=
  match s with [] => false | _ :: _ => true end.

(** [`${n}`] for an integral number [n]: its decimal digits, with a
    leading minus sign when negative. *)
Definition of_Z (n : Z) : t :=
  of_ascii (NilEmpty.string_of_int (Z.to_int n)).

End JSString.

Abbreviation jsstring := (list N).

(** ** Data model *)

(** One file of the store, an object with the properties [content],
    [saveTime] and [lastOpenTime].  [save()] writes all three; an object
    that [renameFile] has made out of a value that is not a file lacks
    some (see [spread]), so each property is optional: [None] when the
    object does not have it, in which case reading it yields [undefined].
    The two times are written with [new Date().toISOString()]; they are
    kept as the clock reading (milliseconds since the epoch) that the
    ISO-8601 text denotes. *)
Record FileRecord : Type := {
  content : option jsstring;
  saveTime : option Z;
  lastOpenTime : option Z
}.

(** The object kept under ['md_editor_files'], as the map of its own
    properties: file name to file.  [delete files[name]] is [delete] on
    this map.  What [files[name]] reads and what [files[name] = v] writes
    also depends on the prototype of the object, see [lookup_property] and
    [assign_property]. *)
Abbreviation FileStore := (gmap (list N) FileRecord).

(** A text held by [localStorage].  The program only produces such a text
    with [JSON.stringify] and only consumes it with a truthiness test and
    [JSON.parse], so a text is represented by what those two make of it:
      - [EmptyText]: the empty string (falsy; [JSON.parse] rejects it);
      - [Malformed]: a non-empty text that [JSON.parse] rejects;
      - [FilesText files]: a text that [JSON.parse] reads as the object
        [files], such as [JSON.stringify(files)].
    JSON texts of other shapes (a number, an array, ...) are not covered. *)
Inductive StoredText : Type :=
  | EmptyText
  | Malformed
  | FilesText (files : FileStore).

Inductive JSError : Type := SyntaxError | TypeError.

(** What the code writes to the console. *)
Inductive LogLine : Type :=
  | AutoSaveSucceeded (fileName : jsstring) (time : Z)
  | Uncaught (e : JSError).

(** The fields of an [AutoSaveManager] instance ([getEditorView] and
    [getContent] are closures over the editor state, see [getContent]). *)
Record AutoSaveManager : Type := {
  interval : option positive;
  saveInterval : Z;
  currentFileName : option jsstring
}.

(** Everything the code reads or writes. *)
Record World : Type := {
  (** [localStorage]: the item under the key ['md_editor_files'], the only
      key the code uses; [None] when the key is absent. *)
  md_editor_files : option StoredText;
  (** [editorState.content.value], the editor buffer: a string, or
      [undefined] ([None]) once that has been loaded into it. *)
  editorBuffer : option jsstring;
  (** [autoSaveManager.value]: [null] until [initAutoSave] runs. *)
  autoSaveManager : option AutoSaveManager;
  (** The host's live interval timers created by [setInterval], with
      their delay; the callback of each is [() => this.save()]. *)
  timers : gmap positive Z;
  (** The handle the next [setInterval] returns. *)
  nextTimer : positive;
  (** The successive readings of the clock, one per [new Date()]. *)
  clock : nat -> Z;
  clockReads : nat;
  (** The console, newest line first. *)
  console : list LogLine
}.

(** ** The monad of JavaScript code *)

Inductive Completion (A : Type) : Type :=
  | Normal (a : A)
  | Throw (e : JSError).
Arguments Normal {A} a.
Arguments Throw {A} e.

Definition JS (A : Type) : Type := World -> Completion A * World.

#[global] Instance JS_ret : MRet JS := fun A a w => (Normal a, w).

#[global] Instance JS_bind : MBind JS := fun A B f m w =>
  match m w with
  | (Normal a, w') => f a w'
  | (Throw e, w') => (Throw e, w')
  end.

Definition throw {A : Type} (e : JSError) : JS A := fun w => (Throw e, w).

Definition gets {A : Type} (f : World -> A) : JS A := fun w => (Normal (f w), w).

Definition modify (f : World -> World) : JS unit := fun w => (Normal tt, f w).

(** The world a call leaves behind, however it completes. *)
Definition after {A : Type} (m : JS A) (w : World) : World := snd (m w).

(** How a call completes. *)
Definition completion {A : Type} (m : JS A) (w : World) : Completion A := fst (m w).

(** ** Field updates *)

Definition with_files (item : option StoredText) (w : World) : World :=
  {| md_editor_files := item; editorBuffer := editorBuffer w;
     autoSaveManager := autoSaveManager w; timers := timers w;
     nextTimer := nextTimer w; clock := clock w; clockReads := clockReads w;
     console := console w |}.

Definition with_buffer (b : option jsstring) (w : World) : World :=
  {| md_editor_files := md_editor_files w; editorBuffer := b;
     autoSaveManager := autoSaveManager w; timers := timers w;
     nextTimer := nextTimer w; clock := clock w; clockReads := clockReads w;
     console := console w |}.

(** The buffer holds the string [c]. *)
Definition with_content (c : jsstring) (w : World) : World :=
  with_buffer (Some c) w.

Definition with_manager (m : option AutoSaveManager) (w : World) : World :=
  {| md_editor_files := md_editor_files w; editorBuffer := editorBuffer w;
     autoSaveManager := m; timers := timers w;
     nextTimer := nextTimer w; clock := clock w; clockReads := clockReads w;
     console := console w |}.

Definition with_timers (ts : gmap positive Z) (next : positive) (w : World) : World :=
  {| md_editor_files := md_editor_files w; editorBuffer := editorBuffer w;
     autoSaveManager := autoSaveManager w; timers := ts;
     nextTimer := next; clock := clock w; clockReads := clockReads w;
     console := console w |}.

Definition with_clockReads (n : nat) (w : World) : World :=
  {| md_editor_files := md_editor_files w; editorBuffer := editorBuffer w;
     autoSaveManager := autoSaveManager w; timers := timers w;
     nextTimer := nextTimer w; clock := clock w; clockReads := n;
     console := console w |}.

Definition with_console (l : list LogLine) (w : World) : World :=
  {| md_editor_files := md_editor_files w; editorBuffer := editorBuffer w;
     autoSaveManager := autoSaveManager w; timers := timers w;
     nextTimer := nextTimer w; clock := clock w; clockReads := clockReads w;
     console := l |}.

Definition with_interval (i : option positive) (m : AutoSaveManager) : AutoSaveManager :=
  {| interval := i; saveInterval := saveInterval m;
     currentFileName := currentFileName m |}.

Definition with_currentFileName (n : option jsstring) (m : AutoSaveManager) : AutoSaveManager :=
  {| interval := interval m; saveInterval := saveInterval m;
     currentFileName := n |}.

(** [{...r, saveTime: t}] *)
Definition with_saveTime (t : Z) (r : FileRecord) : FileRecord :=
  {| content := content r; saveTime := Some t; lastOpenTime := lastOpenTime r |}.

(** The text in the editor buffer; there is none when the buffer holds
    [undefined]. *)
Definition editorContent (w : World) : jsstring := default [] (editorBuffer w).

(** ** The host: storage, JSON, clock, timers, console *)

(** [localStorage.getItem('md_editor_files')] *)
Definition localStorage_getItem : JS (option StoredText) := gets md_editor_files.

(** [localStorage.setItem('md_editor_files', text)].  The storage takes
    every text: its quota is not part of the model, so a write never ends
    in a [QuotaExceededError] here. *)
Definition localStorage_setItem (text : StoredText) : JS unit :=
  modify (with_files (Some text)).

(** [JSON.parse(text)] *)
Definition JSON_parse (text : StoredText) : JS FileStore :=
  match text with
  | FilesText files => mret files
  | EmptyText | Malformed => throw SyntaxError
  end.

(** [JSON.stringify(files)] *)
Definition JSON_stringify (files : FileStore) : StoredText :=
  FilesText files.

(** Truthiness of a text: only the empty string is falsy. *)
Definition text_truthy (text : StoredText) : bool :=
  match text with EmptyText => false | _ => true end.

(** [new Date()], read as milliseconds since the epoch. *)
Definition new_Date : JS Z := fun w =>
  (Normal (clock w (clockReads w)), with_clockReads (S (clockReads w)) w).

(** [setInterval(() => { this.save() }, delay)] *)
Definition setInterval (delay : Z) : JS positive := fun w =>
  (Normal (nextTimer w),
   with_timers (<[nextTimer w := delay]> (timers w)) (Pos.succ (nextTimer w)) w).

(** [clearInterval(id)] *)
Definition clearInterval (id : positive) : JS unit :=
  modify (fun w => with_timers (delete id (timers w)) (nextTimer w) w).

(** [console.log(line)] *)
Definition console_log (line : LogLine) : JS unit :=
  modify (fun w => with_console (line :: console w) w).

(** ** Objects

    The object [JSON.parse] returns has [Object.prototype] as its
    prototype: a name that is not among its own properties is looked up
    there. *)

Definition PROTO : jsstring := JSString.of_ascii "__proto__".

(** The methods of [Object.prototype] as the browser provides it
    (ECMA-262 with its Annex B); with the accessor [__proto__] they are all
    its properties. *)
Definition Object_prototype_methods : list jsstring :=
  map JSString.of_ascii
    ["constructor"; "__defineGetter__"; "__defineSetter__"; "hasOwnProperty";
     "__lookupGetter__"; "__lookupSetter__"; "isPrototypeOf";
     "propertyIsEnumerable"; "toString"; "valueOf"; "toLocaleString"]%string.

Definition Object_prototype_names : list jsstring :=
  PROTO :: Object_prototype_methods.

(** What reading a property of the parsed object can yield. *)
Inductive Value : Type :=
  | Undefined
  | File (file : FileRecord)
  | Method            (** a function of [Object.prototype] *)
  | ObjectPrototype.  (** [Object.prototype] itself *)

(** [files[name]]: the own property, else the inherited one; the getter
    of [__proto__] returns the prototype of the object. *)
Definition lookup_property (files : FileStore) (name : jsstring) : Value :=
  match files !! name with
  | Some file => File file
  | None =>
      if decide (name = PROTO) then ObjectPrototype
      else if decide (name ∈ Object_prototype_methods) then Method
      else Undefined
  end.

(** Truthiness: of these values only [undefined] is falsy. *)
Definition value_truthy (v : Value) : bool :=
  match v with Undefined => false | _ => true end.

(** Truthiness of the content: [undefined] and the empty string are
    falsy. *)
Definition content_truthy (c : option jsstring) : bool :=
  match c with Some s => JSString.truthy s | None => false end.

(** An object without properties, [{}]. *)
Definition no_properties : FileRecord :=
  {| content := None; saveTime := None; lastOpenTime := None |}.

(** [{...v}]: the own enumerable properties of [v]; a function and
    [Object.prototype] have none. *)
Definition spread (v : Value) : FileRecord :=
  match v with
  | File file => file
  | Undefined | Method | ObjectPrototype => no_properties
  end.

(** The own properties of [files] after [files[name] = file], the value
    being an object.  An own property is overwritten and a new name becomes
    an own property, also one that names a method of [Object.prototype];
    but where [__proto__] is not an own property the assignment runs the
    setter inherited from [Object.prototype], which makes [file] the
    prototype of [files] and adds no property.  (No code reads a property
    of [files] after such an assignment, so the prototype it has then is
    not kept.) *)
Definition assign_property (files : FileStore) (name : jsstring) (file : FileRecord)
  : FileStore :=
  match files !! name with
  | Some _ => <[name := file]> files
  | None => if decide (name = PROTO) then files else <[name := file]> files
  end.

(** [files[name] = v] for any value [v], as [JSON.stringify] sees [files]
    afterwards: it leaves out a property that holds [undefined] or a
    function, and writes [Object.prototype], which has no enumerable
    property, as [{}]. *)
Definition assign_value (files : FileStore) (name : jsstring) (v : Value)
  : FileStore :=
  match v with
  | File file => assign_property files name file
  | ObjectPrototype => assign_property files name no_properties
  | Undefined | Method => delete name files
  end.

(** ** The editor buffer *)

(** [getContent: () => editorState.content.value] *)
Definition getContent : JS (option jsstring) := gets editorBuffer.

(** Modelled from the spec: [editorLifecycle.updateContent] lives in
    [useEditorLifecycle.js], which is not part of the sources at hand; the
    spec describes it as the content source's [setValue(content)], which
    loads the editor buffer that [getContent] reads.  The buffer then
    holds the value passed, which is [undefined] ([None]) where the code
    passes the [content] of a value that has none. *)
Definition updateContent (c : option jsstring) : JS unit := modify (with_buffer c).

(** ** [class AutoSaveManager] *)

(** [this], inside a method of the manager held by [autoSaveManager.value];
    reading a member of [null] throws. *)
Definition this : JS AutoSaveManager := fun w =>
  match autoSaveManager w with
  | Some m => (Normal m, w)
  | None => (Throw TypeError, w)
  end.

Definition set_this (f : AutoSaveManager -> AutoSaveManager) : JS unit :=
  modify (fun w => with_manager (f <$> autoSaveManager w) w).

(** [autoSaveManager.value.method()] *)
Definition invoke {A : Type} (method : JS A) : JS A := _ ← this; method.

(** [autoSaveManager.value?.method()]: [undefined] when the manager is [null]. *)
Definition invoke_opt {A : Type} (method : JS A) : JS (option A) := fun w =>
  match autoSaveManager w with
  | Some _ => (a ← method; mret (Some a)) w
  | None => (Normal None, w)
  end.

(** [options.interval || 10000] *)
Definition DEFAULT_INTERVAL : Z := 10000.

(** [new AutoSaveManager(options)]; [options.interval] is [None] when the
    option is not given, as in [initAutoSave]. *)
Definition constructor (options_interval : option Z) : AutoSaveManager :=
  {| interval := None;
     saveInterval := match options_interval with
                     | Some i => if Z.eqb i 0 then DEFAULT_INTERVAL else i
                     | None => DEFAULT_INTERVAL
                     end;
     currentFileName := None |}.

(** The prefix of a generated file name: the six code units of 未命名文件_ . *)
Definition UNTITLED_PREFIX : jsstring :=
  [0x672A; 0x547D; 0x540D; 0x6587; 0x4EF6; 0x005F]%N.

(** [`未命名文件_${timestamp}`] *)
Definition untitled (timestamp : Z) : jsstring :=
  UNTITLED_PREFIX ++ JSString.of_Z timestamp.

(** [getFileName()] *)
Definition getFileName : JS jsstring :=
  m ← this;
  match currentFileName m with
  | Some (c :: s) => mret (c :: s)
  | Some [] | None =>
      t ← new_Date;
      set_this (with_currentFileName (Some (untitled t)));;
      mret (untitled t)
  end.

(** [setFileName(name)] *)
Definition setFileName (name : jsstring) : JS unit :=
  if JSString.truthy name && JSString.truthy (JSString.trim name)
  then set_this (with_currentFileName (Some (JSString.trim name)))
  else mret tt.

(** [save()] *)
Definition save : JS unit :=
  content ← getContent;
  if negb (content_truthy content) then mret tt else
  fileName ← getFileName;
  saveTime ← new_Date;
  item ← localStorage_getItem;
  files ← JSON_parse (match item with
                      | Some text => if text_truthy text then text else FilesText ∅
                      | None => FilesText ∅
                      end);
  lastOpenTime ← new_Date;
  localStorage_setItem
    (JSON_stringify
       (assign_property files fileName
          {| content := content; saveTime := Some saveTime;
             lastOpenTime := Some lastOpenTime |}));;
  logTime ← new_Date;
  console_log (AutoSaveSucceeded fileName logTime).

(** [start()] *)
Definition start : JS unit :=
  m ← this;
  match interval m with Some id => clearInterval id | None => mret tt end;;
  save;;
  m ← this;
  id ← setInterval (saveInterval m);
  set_this (with_interval (Some id)).

(** [stop()] *)
Definition stop : JS unit :=
  m ← this;
  match interval m with
  | Some id => clearInterval id;; set_this (with_interval None)
  | None => mret tt
  end.

(** ** [useMarkdownEditor]: [initAutoSave] and [fileManager] *)

(** [initAutoSave()] *)
Definition initAutoSave : JS unit :=
  modify (with_manager (Some (constructor None)));;
  invoke start.

(** [fileManager.getSavedFiles()] *)
Definition getSavedFiles : JS FileStore :=
  files ← localStorage_getItem;
  match files with
  | Some text => if text_truthy text then JSON_parse text else mret ∅
  | None => mret ∅
  end.

(** [fileManager.createNewFile(fileName)]; [None] is a call without argument. *)
Definition createNewFile (fileName : option jsstring) : JS jsstring :=
  timestamp ← new_Date;
  let name := match fileName with
              | Some (c :: s) => c :: s
              | Some [] | None => untitled timestamp
              end in
  updateContent (Some []);;
  invoke_opt (setFileName name);;
  invoke_opt save;;
  mret name.

(** [file.content]; reading a member of [undefined] throws. *)
Definition member_content (file : Value) : JS (option jsstring) :=
  match file with
  | Undefined => throw TypeError
  | File file => mret (content file)
  | Method | ObjectPrototype => mret None
  end.

(** [fileManager.openFile(fileName)] *)
Definition openFile (fileName : jsstring) : JS unit :=
  files ← getSavedFiles;
  if value_truthy (lookup_property files fileName) then
    content ← member_content (lookup_property files fileName);
    updateContent content;;
    invoke_opt (setFileName fileName);;
    mret tt
  else mret tt.

(** [fileManager.renameFile(oldName, newName)] *)
Definition renameFile (oldName newName : jsstring) : JS bool :=
  if decide (oldName = newName) then mret false else
  files ← getSavedFiles;
  if negb (value_truthy (lookup_property files oldName)) then mret false else
  now ← new_Date;
  let files :=
    delete oldName
      (assign_property files newName
         (with_saveTime now (spread (lookup_property files oldName)))) in
  localStorage_setItem (JSON_stringify files);;
  current ← invoke_opt getFileName;
  (if decide (current = Some oldName)
   then invoke_opt (setFileName newName);; mret tt
   else mret tt);;
  mret true.

(** [fileManager.deleteFile(fileName)] *)
Definition deleteFile (fileName : jsstring) : JS bool :=
  files ← getSavedFiles;
  if value_truthy (lookup_property files fileName) then
    localStorage_setItem (JSON_stringify (delete fileName files));;
    mret true
  else mret false.

(** ** Calls and reachable worlds *)

(** What can happen to a world once the manager exists: a call of one of
    the exposed operations, a timer firing, or the user editing the buffer. *)
Inductive Call : Type :=
  | CallStart
  | CallStop
  | CallSave
  | CallGetFileName
  | CallSetFileName (name : jsstring)
  | CallGetSavedFiles
  | CallCreateNewFile (fileName : option jsstring)
  | CallOpenFile (fileName : jsstring)
  | CallRenameFile (oldName newName : jsstring)
  | CallDeleteFile (fileName : jsstring)
  | TimerFires (id : positive)
  | UserEdits (text : jsstring).

(** The host runs the callback [() => { this.save() }] of a live interval
    timer.  An error thrown by the callback is reported on the console; the
    browser keeps the interval armed. *)
Definition fire (id : positive) : JS unit := fun w =>
  match timers w !! id with
  | None => (Normal tt, w)
  | Some _ =>
      match save w with
      | (Normal _, w') => (Normal tt, w')
      | (Throw e, w') => (Normal tt, with_console (Uncaught e :: console w') w')
      end
  end.

(** The world after a call, whether it returned or threw. *)
Definition perform (c : Call) (w : World) : World :=
  match c with
  | CallStart => after (invoke start) w
  | CallStop => after (invoke stop) w
  | CallSave => after (invoke save) w
  | CallGetFileName => after (invoke getFileName) w
  | CallSetFileName name => after (invoke (setFileName name)) w
  | CallGetSavedFiles => after getSavedFiles w
  | CallCreateNewFile fileName => after (createNewFile fileName) w
  | CallOpenFile fileName => after (openFile fileName) w
  | CallRenameFile oldName newName => after (renameFile oldName newName) w
  | CallDeleteFile fileName => after (deleteFile fileName) w
  | TimerFires id => after (fire id) w
  | UserEdits text => after (updateContent (Some text)) w
  end.

(** The stored item is absent or is a text the program can read back: the
    empty string or a serialized store. *)
Definition readable (w : World) : Prop := md_editor_files w <> Some Malformed.

(** A world right after [new AutoSaveManager(options)]: no timer of the
    manager exists yet. *)
Definition constructed (w : World) : Prop :=
  (exists options_interval, autoSaveManager w = Some (constructor options_interval))
  /\ timers w = ∅.

(** The worlds the program gets into by itself: it starts with a new
    manager on a storage left by earlier sessions (nothing but the program
    writes the item), and then any sequence of calls happens. *)
Inductive reachable : World -> Prop :=
  | reachable_constructed w : constructed w -> readable w -> reachable w
  | reachable_perform w c : reachable w -> reachable (perform c w).

(** ** Predicates of the claims *)

(** The string is empty or begins with a code unit that is not white space. *)
Definition starts_clean (s : jsstring) : Prop :=
  match s with
  | c :: _ => JSString.is_white_space c = false
  | [] => True
  end.

(** Empty or made of white space only. *)
Definition blank (s : jsstring) : Prop := JSString.trim s = [].

(** Two properties of a file name: trimmed and not empty; not empty and
    not made of white space only. *)
Definition trimmed (s : jsstring) : Prop := JSString.trim s = s /\ s <> [].

Definition not_blank (s : jsstring) : Prop := s <> [] /\ ~ blank s.

(** The current file name of a manager is [null] or has the property [Q]. *)
Definition well_named_by (Q : jsstring -> Prop) (m : AutoSaveManager) : Prop :=
  forall s, currentFileName m = Some s -> Q s.

(** A property that the names given by [setFileName] and by [getFileName]
    have: the non-empty results of [trim] and the generated names. *)
Definition given_names_are (Q : jsstring -> Prop) : Prop :=
  (forall s, JSString.trim s <> [] -> Q (JSString.trim s))
  /\ (forall t, Q (untitled t)).

(** Every live timer is the one the manager holds in [this.interval]. *)
Definition timers_owned (w : World) : Prop :=
  forall id, is_Some (timers w !! id) ->
    interval <$> autoSaveManager w = Some (Some id).

(** [this.currentFileName] of the manager of a world. *)
Definition currentFileName_of (w : World) : option (option jsstring) :=
  currentFileName <$> autoSaveManager w.

(** A call keeps a property of the world, whether it returns or throws. *)
Definition preserves {A : Type} (P : World -> Prop) (m : JS A) : Prop :=
  forall w, P w -> P (after m w).

(** The manager exists and its current file name is [null] or has [Q]. *)
Definition named_by (Q : jsstring -> Prop) (w : World) : Prop :=
  exists m, autoSaveManager w = Some m /\ well_named_by Q m.

(** What the timer discipline is about: the live timers and the handle
    the manager holds. *)
Definition timer_state (w : World)
  : gmap positive Z * positive * option (option positive) * option Z :=
  (timers w, nextTimer w, interval <$> autoSaveManager w,
   saveInterval <$> autoSaveManager w).

(** A call that touches neither the timers nor [this.interval] and
    [this.saveInterval]. *)
Definition keeps_timers {A : Type} (m : JS A) : Prop :=
  forall x, preserves (fun w => timer_state w = x) m.

(** The name [getFileName()] yields for a manager, at clock reading [t]. *)
Definition fileName_at (t : Z) (m : AutoSaveManager) : jsstring :=
  match currentFileName m with
  | Some (c :: s) => c :: s
  | Some [] | None => untitled t
  end.

(** Reading number [i] of the clock from now on. *)
Definition reading (i : nat) (w : World) : Z := clock w (i + clockReads w)%nat.

(** The object [save()] starts from: the parsed item, or [{}]. *)
Definition stored (w : World) : FileStore :=
  match md_editor_files w with
  | Some (FilesText files) => files
  | _ => ∅
  end.

(** The store a [renameFile(oldName, newName)] that goes through
    persists, [now] being the clock reading it takes. *)
Definition renamed (files : FileStore) (oldName newName : jsstring) (now : Z)
  : FileStore :=
  delete oldName
    (assign_property files newName
       (with_saveTime now (spread (lookup_property files oldName)))).

(** ** Example worlds *)

Definition example_clock (n : nat) : Z := 1700000000000 + Z.of_nat n.

(** A new manager on a storage without the item; the user has typed
    [hello]. *)
Definition fresh_world : World :=
  {| md_editor_files := None;
     editorBuffer := Some (JSString.of_ascii "hello");
     autoSaveManager := Some (constructor None);
     timers := ∅;
     nextTimer := 1%positive;
     clock := example_clock;
     clockReads := 0;
     console := [] |}.

Definition record_a : FileRecord :=
  {| content := Some (JSString.of_ascii "alpha");
     saveTime := Some 1%Z; lastOpenTime := Some 2%Z |}.

Definition record_b : FileRecord :=
  {| content := Some (JSString.of_ascii "beta");
     saveTime := Some 3%Z; lastOpenTime := Some 4%Z |}.

(** The store holds the files [a] and [b]. *)
Definition two_files_world : World :=
  with_files
    (Some (FilesText (<[JSString.of_ascii "a" := record_a]>
                        {[JSString.of_ascii "b" := record_b]})))
    fresh_world.

(** The item has been overwritten with a text that is not JSON. *)
Definition corrupt_world : World := with_files (Some Malformed) fresh_world.

(** The manager's current file is [f], the user has typed [x]. *)
Definition editing_f_world : World :=
  with_manager
    (Some (with_currentFileName (Some (JSString.of_ascii "f")) (constructor None)))
    (with_content (JSString.of_ascii "x") fresh_world).

(** The manager's current file is [__proto__], the user has typed [x]. *)
Definition editing_proto_world : World :=
  with_manager
    (Some (with_currentFileName (Some PROTO) (constructor None)))
    (with_content (JSString.of_ascii "x") fresh_world).

(** The world with the prior timer of the manager cleared, as [start()]
    has it before the immediate save. *)
Definition prior_cleared (w : World) : World :=
  match autoSaveManager w with
  | Some {| interval := Some id |} =>
      with_timers (delete id (timers w)) (nextTimer w) w
  | _ => w
  end.

(** The manager is running (timer 1 is live) when the item gets
    overwritten with a text that is not JSON. *)
Definition corrupt_running_world : World :=
  with_files (Some Malformed) (after (invoke start) fresh_world).

(** ** More of [useMarkdownEditor]: teardown *)

(** [onUnmounted(() => { autoSaveManager.value?.stop() })] *)
Definition onUnmounted : JS unit := invoke_opt stop;; mret tt.

(** ** The file-list component

    Its script keeps the list it shows in the ref [files]; the functions
    below take the current value of [files.value] where they read it and
    return the value they assign to it.  Through [useEditor()] the script
    holds the manager ref [autoSaveManager] and calls its methods without
    [?.]. *)

Module FileList.

(** [loadFiles()]: the value assigned to [files.value]. *)
Definition loadFiles : JS FileStore :=
  item ← localStorage_getItem;
  JSON_parse (match item with
              | Some text => if text_truthy text then text else FilesText ∅
              | None => FilesText ∅
              end).

(** Modelled from the spec: [editor.value.setValue] belongs to the editor
    component, which is not part of the sources at hand; the spec describes
    it as the content source's [setValue(content)], which loads the editor
    buffer. *)
Definition setValue (c : option jsstring) : JS unit := updateContent c.

(** [openFile(name)], with [view] the current [files.value]. *)
Definition openFile (view : FileStore) (name : jsstring) : JS unit :=
  let file := lookup_property view name in
  content ← member_content file;
  setValue content;;
  invoke (setFileName name).

(** [createNewFile()]: returns the reloaded [files.value]. *)
Definition createNewFile : JS FileStore :=
  timestamp ← new_Date;
  let newName := untitled timestamp in
  setValue (Some []);;
  invoke (setFileName newName);;
  invoke save;;
  loadFiles.

(** [renameFile()]; [prompt] gives the user's answer to the dialog that
    shows the old name ([None] when cancelled).  Returns the reloaded
    [files.value] when the rename is carried out. *)
Definition renameFile (prompt : jsstring -> option jsstring)
  : JS (option FileStore) :=
  oldName ← invoke getFileName;
  match prompt oldName with
  | Some (c :: s) =>
      let newName := c :: s in
      if decide (newName = oldName) then mret None else
      item ← localStorage_getItem;
      filesData ← JSON_parse (match item with
                              | Some text =>
                                  if text_truthy text then text else FilesText ∅
                              | None => FilesText ∅
                              end);
      let copied :=
        assign_value filesData newName (lookup_property filesData oldName) in
      localStorage_setItem (JSON_stringify (delete oldName copied));;
      invoke (setFileName newName);;
      view ← loadFiles;
      mret (Some view)
  | Some [] | None => mret None
  end.

End FileList.

(** The manager runs (timer 1 is live) on the store with the files [a]
    and [b]; its current file is [a]. *)
Definition running_on_a_world : World :=
  with_manager
    (Some {| interval := Some 1%positive;
             saveInterval := DEFAULT_INTERVAL;
             currentFileName := Some (JSString.of_ascii "a") |})
    (with_timers {[1%positive := DEFAULT_INTERVAL]} 2%positive two_files_world).

(** The store holds [a] and [b]; the manager's current file [n] has never
    been saved. *)
Definition unsaved_n_world : World :=
  with_manager
    (Some (with_currentFileName (Some (JSString.of_ascii "n"))
             (constructor None)))
    two_files_world.

(** Every live timer has the delay [this.saveInterval], which is not 0. *)
Definition delays_set (w : World) : Prop :=
  exists m, autoSaveManager w = Some m
  /\ saveInterval m <> 0%Z
  /\ forall id delay, timers w !! id = Some delay -> delay = saveInterval m.

(** * Properties *)

(** ** Trimming *)

Section Trimming.

Import JSString.

Lemma trimStart_starts_clean (s : jsstring) : starts_clean (trimStart s).
Proof.
  induction s as [|c s IH]; simpl; [exact I|].
  destruct (is_white_space c) eqn:Hc; [exact IH | exact Hc].
Qed.

Lemma trimStart_id (s : jsstring) : starts_clean s -> trimStart s = s.
Proof. destruct s as [|c s]; simpl; intros H; [reflexivity | now rewrite H]. Qed.

Lemma trimStart_suffix (s : jsstring) : exists p, s = p ++ trimStart s.
Proof.
  induction s as [|c s [p IH]]; simpl.
  - now exists [].
  - destruct (is_white_space c).
    + exists (c :: p). simpl. now f_equal.
    + now exists [].
Qed.

Lemma starts_clean_prefix (x y : jsstring) :
  x <> [] -> starts_clean (x ++ y) -> starts_clean x.
Proof. destruct x; [congruence | simpl; auto]. Qed.

Lemma trim_id (s : jsstring) :
  starts_clean s -> starts_clean (rev s) -> trim s = s.
Proof.
  intros H1 H2. unfold trim, trimEnd.
  rewrite (trimStart_id s H1), (trimStart_id _ H2). apply rev_involutive.
Qed.

Lemma trim_ends_clean (s : jsstring) :
  starts_clean (trim s) /\ starts_clean (rev (trim s)).
Proof.
  unfold trim, trimEnd. rewrite rev_involutive.
  pose proof (trimStart_starts_clean s) as Ha.
  set (a := trimStart s) in *.
  pose proof (trimStart_starts_clean (rev a)) as Hb.
  destruct (trimStart_suffix (rev a)) as [p Hp].
  set (b := trimStart (rev a)) in *.
  split; [|exact Hb].
  destruct b as [|c b'] eqn:Eb; [exact I|].
  apply (starts_clean_prefix _ (rev p)).
  - simpl. intros E. apply app_eq_nil in E as [_ E]. discriminate.
  - rewrite <- rev_app_distr, <- Hp, rev_involutive. exact Ha.
Qed.

Lemma trim_trim (s : jsstring) : trim (trim s) = trim s.
Proof. destruct (trim_ends_clean s). now apply trim_id. Qed.

Lemma trim_nil : trim [] = [].
Proof. reflexivity. Qed.

Lemma trim_no_white_space (s : jsstring) :
  Forall (fun c => is_white_space c = false) s -> trim s = s.
Proof.
  intros H. apply trim_id.
  - destruct H; simpl; auto.
  - generalize (Stdlib.Lists.List.Forall_rev H).
    destruct (rev s); intros Hr; [exact I | exact (Stdlib.Lists.List.Forall_inv Hr)].
Qed.

Lemma truthy_true (s : jsstring) : truthy s = true <-> s <> [].
Proof. destruct s; simpl; split; congruence. Qed.

Lemma truthy_false (s : jsstring) : truthy s = false <-> s = [].
Proof. destruct s; simpl; split; congruence. Qed.

Lemma of_uint_no_white_space (d : Decimal.uint) :
  Forall (fun c => is_white_space c = false)
         (of_ascii (NilEmpty.string_of_uint d)).
Proof.
  induction d; simpl; try constructor; try reflexivity; assumption.
Qed.

Lemma of_Z_no_white_space (n : Z) :
  Forall (fun c => is_white_space c = false) (of_Z n).
Proof.
  unfold of_Z. destruct (Z.to_int n) as [d|d]; simpl.
  - apply of_uint_no_white_space.
  - constructor; [reflexivity | apply of_uint_no_white_space].
Qed.

Lemma untitled_not_nil (t : Z) : untitled t <> [].
Proof. discriminate. Qed.

Lemma trim_untitled (t : Z) : trim (untitled t) = untitled t.
Proof.
  apply trim_no_white_space. unfold untitled. apply Forall_app. split.
  - repeat constructor.
  - apply of_Z_no_white_space.
Qed.

End Trimming.

(** ** Properties kept by a call *)

Section Preservation.

Context {A B : Type} (P : World -> Prop).

Lemma preserves_ret (a : A) : preserves P (mret a).
Proof. intros w H. exact H. Qed.

Lemma preserves_throw (e : JSError) : preserves P (@throw A e).
Proof. intros w H. exact H. Qed.

Lemma preserves_gets (f : World -> A) : preserves P (gets f).
Proof. intros w H. exact H. Qed.

Lemma preserves_bind (m : JS A) (f : A -> JS B) :
  preserves P m -> (forall a, preserves P (f a)) -> preserves P (m ≫= f).
Proof.
  intros Hm Hf w H. specialize (Hm w H).
  unfold after, mbind, JS_bind in *.
  destruct (m w) as [[a|e] w']; simpl in *.
  - now apply Hf.
  - exact Hm.
Qed.

Lemma preserves_modify (f : World -> World) :
  (forall w, P w -> P (f w)) -> preserves P (modify f).
Proof. intros Hf w H. now apply Hf. Qed.

Lemma preserves_this : preserves P this.
Proof. intros w H. unfold after, this. now destruct (autoSaveManager w). Qed.

Lemma preserves_JSON_parse (text : StoredText) : preserves P (JSON_parse text).
Proof. intros w H. now destruct text. Qed.

Lemma preserves_invoke_opt (m : JS A) : preserves P m -> preserves P (invoke_opt m).
Proof.
  intros Hm w H. unfold after, invoke_opt.
  destruct (autoSaveManager w); [|exact H].
  specialize (Hm w H). unfold after, mbind, JS_bind in *.
  now destruct (m w) as [[r|e] w'].
Qed.

End Preservation.

Lemma preserves_invoke {A : Type} (P : World -> Prop) (m : JS A) :
  preserves P m -> preserves P (invoke m).
Proof. intros Hm. apply preserves_bind; [apply preserves_this | intros _; exact Hm]. Qed.

Lemma preserves_member_content (P : World -> Prop) (file : Value) :
  preserves P (member_content file).
Proof. intros w H. now destruct file. Qed.

Create HintDb preserve discriminated.

#[local] Hint Resolve preserves_ret preserves_throw preserves_gets
  preserves_this preserves_JSON_parse preserves_member_content : preserve.

(** Walks through the binds and the case distinctions of a method body;
    [leaf] is tried first, on the effects and on the methods already dealt
    with. *)
Ltac preserve_with leaf :=
  repeat first
    [ leaf
    | progress eauto 2 with preserve
    | apply preserves_bind; [|intros ?]
    | apply preserves_invoke_opt
    | apply preserves_invoke
    | match goal with
      | |- preserves _ (match ?x with _ => _ end) => destruct x
      | |- preserves _ (if ?x then _ else _) => destruct x
      end ].

Ltac preserve := preserve_with fail.

(** ** The current file name stays well formed *)

Lemma trimmed_given : given_names_are trimmed.
Proof.
  split.
  - intros s Hs. split; [apply trim_trim | exact Hs].
  - intros t. split; [apply trim_untitled | apply untitled_not_nil].
Qed.

Lemma trimmed_not_blank s : trimmed s -> not_blank s.
Proof. intros [Ht Hs]. split; [exact Hs|]. unfold blank. now rewrite Ht. Qed.

Lemma not_blank_given : given_names_are not_blank.
Proof.
  destruct trimmed_given as [H1 H2].
  split; intros; apply trimmed_not_blank; auto.
Qed.

Section NameInvariant.

Context (Q : jsstring -> Prop) (HQ : given_names_are Q).

Lemma named_localStorage_setItem text : preserves (named_by Q) (localStorage_setItem text).
Proof. apply preserves_modify. intros w H. exact H. Qed.

Lemma named_new_Date : preserves (named_by Q) new_Date.
Proof. intros w H. exact H. Qed.

Lemma named_setInterval delay : preserves (named_by Q) (setInterval delay).
Proof. intros w H. exact H. Qed.

Lemma named_clearInterval id : preserves (named_by Q) (clearInterval id).
Proof. intros w H. exact H. Qed.

Lemma named_console_log line : preserves (named_by Q) (console_log line).
Proof. intros w H. exact H. Qed.

Lemma named_updateContent c : preserves (named_by Q) (updateContent c).
Proof. intros w H. exact H. Qed.

Lemma named_set_interval i : preserves (named_by Q) (set_this (with_interval i)).
Proof.
  intros w [m [Hm Hn]]. exists (with_interval i m).
  unfold after; simpl. now rewrite Hm.
Qed.

Lemma named_set_currentFileName s :
  Q s -> preserves (named_by Q) (set_this (with_currentFileName (Some s))).
Proof.
  intros Hs w [m [Hm _]]. exists (with_currentFileName (Some s) m).
  unfold after; simpl. rewrite Hm. split; [reflexivity|].
  intros s' E. simpl in E. now inversion E; subst.
Qed.

#[local] Hint Resolve named_localStorage_setItem named_new_Date
  named_setInterval named_clearInterval named_console_log
  named_updateContent named_set_interval : preserve.

Lemma named_getFileName : preserves (named_by Q) getFileName.
Proof.
  unfold getFileName.
  preserve; apply named_set_currentFileName, HQ.
Qed.

Lemma named_setFileName name : preserves (named_by Q) (setFileName name).
Proof.
  unfold setFileName.
  destruct (JSString.truthy name && JSString.truthy (JSString.trim name)) eqn:E;
    [|apply preserves_ret].
  apply andb_prop in E as [_ E]. apply truthy_true in E.
  now apply named_set_currentFileName, HQ.
Qed.

#[local] Hint Resolve named_getFileName named_setFileName : preserve.

Lemma named_save : preserves (named_by Q) save.
Proof. unfold save, getContent, localStorage_getItem. preserve. Qed.

#[local] Hint Resolve named_save : preserve.

Lemma named_start : preserves (named_by Q) start.
Proof. unfold start. preserve. Qed.

Lemma named_stop : preserves (named_by Q) stop.
Proof. unfold stop. preserve. Qed.

Lemma named_getSavedFiles : preserves (named_by Q) getSavedFiles.
Proof. unfold getSavedFiles, localStorage_getItem. preserve. Qed.

#[local] Hint Resolve named_start named_stop named_getSavedFiles : preserve.

Lemma named_createNewFile fileName : preserves (named_by Q) (createNewFile fileName).
Proof. unfold createNewFile. preserve. Qed.

Lemma named_openFile fileName : preserves (named_by Q) (openFile fileName).
Proof. unfold openFile. preserve. Qed.

Lemma named_renameFile oldName newName :
  preserves (named_by Q) (renameFile oldName newName).
Proof. unfold renameFile. preserve. Qed.

Lemma named_deleteFile fileName : preserves (named_by Q) (deleteFile fileName).
Proof. unfold deleteFile. preserve. Qed.

Lemma named_fire id : preserves (named_by Q) (fire id).
Proof.
  intros w H. unfold after, fire. destruct (timers w !! id); [|exact H].
  pose proof (named_save w H) as Hs. unfold after in Hs.
  now destruct (save w) as [[[]|e] w'].
Qed.

Lemma named_perform c w : named_by Q w -> named_by Q (perform c w).
Proof.
  destruct c; simpl.
  - apply preserves_invoke, named_start.
  - apply preserves_invoke, named_stop.
  - apply preserves_invoke, named_save.
  - apply preserves_invoke, named_getFileName.
  - apply preserves_invoke, named_setFileName.
  - apply named_getSavedFiles.
  - apply named_createNewFile.
  - apply named_openFile.
  - apply named_renameFile.
  - apply named_deleteFile.
  - apply named_fire.
  - apply named_updateContent.
Qed.

Lemma named_constructed w : constructed w -> named_by Q w.
Proof.
  intros [[options_interval Hm] _]. exists (constructor options_interval).
  split; [exact Hm | discriminate].
Qed.

Lemma named_reachable w : reachable w -> named_by Q w.
Proof.
  induction 1 as [w Hc _ | w c _ IH].
  - now apply named_constructed.
  - now apply named_perform.
Qed.

End NameInvariant.

(** ** The stored item stays readable *)

Lemma readable_localStorage_setItem files :
  preserves readable (localStorage_setItem (JSON_stringify files)).
Proof. intros w _. discriminate. Qed.

Lemma readable_new_Date : preserves readable new_Date.
Proof. intros w H. exact H. Qed.

Lemma readable_setInterval delay : preserves readable (setInterval delay).
Proof. intros w H. exact H. Qed.

Lemma readable_clearInterval id : preserves readable (clearInterval id).
Proof. intros w H. exact H. Qed.

Lemma readable_console_log line : preserves readable (console_log line).
Proof. intros w H. exact H. Qed.

Lemma readable_updateContent c : preserves readable (updateContent c).
Proof. intros w H. exact H. Qed.

Lemma readable_set_this f : preserves readable (set_this f).
Proof. intros w H. exact H. Qed.

#[local] Hint Resolve readable_localStorage_setItem readable_new_Date
  readable_setInterval readable_clearInterval readable_console_log
  readable_updateContent readable_set_this : preserve.

Lemma readable_getFileName : preserves readable getFileName.
Proof. unfold getFileName. preserve. Qed.

Lemma readable_setFileName name : preserves readable (setFileName name).
Proof. unfold setFileName. preserve. Qed.

#[local] Hint Resolve readable_getFileName readable_setFileName : preserve.

Lemma readable_save : preserves readable save.
Proof. unfold save, getContent, localStorage_getItem. preserve. Qed.

#[local] Hint Resolve readable_save : preserve.

Lemma readable_start : preserves readable start.
Proof. unfold start. preserve. Qed.

Lemma readable_stop : preserves readable stop.
Proof. unfold stop. preserve. Qed.

Lemma readable_getSavedFiles : preserves readable getSavedFiles.
Proof. unfold getSavedFiles, localStorage_getItem. preserve. Qed.

#[local] Hint Resolve readable_start readable_stop readable_getSavedFiles : preserve.

Lemma readable_createNewFile fileName : preserves readable (createNewFile fileName).
Proof. unfold createNewFile. preserve. Qed.

Lemma readable_openFile fileName : preserves readable (openFile fileName).
Proof. unfold openFile. preserve. Qed.

Lemma readable_renameFile oldName newName :
  preserves readable (renameFile oldName newName).
Proof. unfold renameFile. preserve. Qed.

Lemma readable_deleteFile fileName : preserves readable (deleteFile fileName).
Proof. unfold deleteFile. preserve. Qed.

Lemma readable_fire id : preserves readable (fire id).
Proof.
  intros w H. unfold after, fire. destruct (timers w !! id); [|exact H].
  pose proof (readable_save w H) as Hs. unfold after in Hs.
  now destruct (save w) as [[[]|e] w'].
Qed.

Lemma readable_perform c w : readable w -> readable (perform c w).
Proof.
  destruct c; simpl.
  - apply preserves_invoke, readable_start.
  - apply preserves_invoke, readable_stop.
  - apply preserves_invoke, readable_save.
  - apply preserves_invoke, readable_getFileName.
  - apply preserves_invoke, readable_setFileName.
  - apply readable_getSavedFiles.
  - apply readable_createNewFile.
  - apply readable_openFile.
  - apply readable_renameFile.
  - apply readable_deleteFile.
  - apply readable_fire.
  - apply readable_updateContent.
Qed.

(** ** Calls that leave the timers alone *)

Lemma keeps_localStorage_setItem text : keeps_timers (localStorage_setItem text).
Proof. intros x w H. exact H. Qed.

Lemma keeps_new_Date : keeps_timers new_Date.
Proof. intros x w H. exact H. Qed.

Lemma keeps_console_log line : keeps_timers (console_log line).
Proof. intros x w H. exact H. Qed.

Lemma keeps_updateContent c : keeps_timers (updateContent c).
Proof. intros x w H. exact H. Qed.

Lemma keeps_set_currentFileName n : keeps_timers (set_this (with_currentFileName n)).
Proof.
  intros x w H. rewrite <- H. unfold after, timer_state; simpl.
  now destruct (autoSaveManager w).
Qed.

Ltac keeps_leaf :=
  first [ apply keeps_new_Date | apply keeps_localStorage_setItem
        | apply keeps_console_log | apply keeps_updateContent
        | apply keeps_set_currentFileName ].

Lemma keeps_getFileName : keeps_timers getFileName.
Proof. intros x. unfold getFileName. preserve_with keeps_leaf. Qed.

Lemma keeps_setFileName name : keeps_timers (setFileName name).
Proof. intros x. unfold setFileName. preserve_with keeps_leaf. Qed.

Lemma keeps_save : keeps_timers save.
Proof.
  intros x. unfold save, getContent, localStorage_getItem.
  preserve_with ltac:(first [apply keeps_getFileName | keeps_leaf]).
Qed.

Lemma keeps_getSavedFiles : keeps_timers getSavedFiles.
Proof. intros x. unfold getSavedFiles, localStorage_getItem. preserve. Qed.

Ltac keeps_method :=
  first [ apply keeps_getFileName | apply keeps_setFileName | apply keeps_save
        | apply keeps_getSavedFiles | keeps_leaf ].

Lemma keeps_createNewFile fileName : keeps_timers (createNewFile fileName).
Proof. intros x. unfold createNewFile. preserve_with keeps_method. Qed.

Lemma keeps_openFile fileName : keeps_timers (openFile fileName).
Proof. intros x. unfold openFile. preserve_with keeps_method. Qed.

Lemma keeps_renameFile oldName newName : keeps_timers (renameFile oldName newName).
Proof. intros x. unfold renameFile. preserve_with keeps_method. Qed.

Lemma keeps_deleteFile fileName : keeps_timers (deleteFile fileName).
Proof. intros x. unfold deleteFile. preserve_with keeps_method. Qed.

Lemma keeps_fire id : keeps_timers (fire id).
Proof.
  intros x w H. unfold after, fire. destruct (timers w !! id); [|exact H].
  pose proof (keeps_save x w H) as Hs. unfold after in Hs.
  now destruct (save w) as [[[]|e] w'].
Qed.

(** ** Running the methods *)

Arguments untitled : simpl never.
Arguments JSString.trim : simpl never.
Arguments JSString.of_Z : simpl never.

Ltac js_unfold :=
  unfold after, completion, initAutoSave, start, stop, save, getFileName,
    setFileName, getSavedFiles, createNewFile, openFile, renameFile,
    deleteFile, invoke, invoke_opt, this, set_this, getContent,
    updateContent, member_content, localStorage_getItem, localStorage_setItem, JSON_parse,
    JSON_stringify, new_Date, setInterval, clearInterval, console_log, gets,
    modify, throw, mbind, mret, JS_bind, JS_ret in *.

Lemma getSavedFiles_run w :
  getSavedFiles w =
  (match md_editor_files w with
   | Some (FilesText files) => Normal files
   | Some Malformed => Throw SyntaxError
   | Some EmptyText | None => Normal ∅
   end, w).
Proof. js_unfold. now destruct (md_editor_files w) as [[]|]. Qed.

Lemma getFileName_run w m :
  autoSaveManager w = Some m ->
  getFileName w =
  (Normal (fileName_at (reading 0 w) m),
   match currentFileName m with
   | Some (_ :: _) => w
   | _ => with_manager
            (Some (with_currentFileName (Some (untitled (reading 0 w))) m))
            (with_clockReads (S (clockReads w)) w)
   end).
Proof.
  intros Hm. unfold fileName_at, reading. simpl.
  js_unfold. rewrite Hm.
  destruct (currentFileName m) as [[|c s]|]; simpl; try reflexivity;
    now rewrite Hm.
Qed.

Lemma editorContent_cons w c s :
  editorContent w = c :: s <-> editorBuffer w = Some (c :: s).
Proof.
  unfold editorContent. destruct (editorBuffer w); cbn; split; congruence.
Qed.

Lemma editorContent_nil w :
  editorContent w = [] <-> content_truthy (editorBuffer w) = false.
Proof.
  unfold editorContent. destruct (editorBuffer w) as [[|c s]|]; cbn;
    split; congruence.
Qed.

Lemma save_empty w : editorContent w = [] -> save w = (Normal tt, w).
Proof. intros Hc. apply editorContent_nil in Hc. js_unfold. now rewrite Hc. Qed.

Lemma save_run w m c s :
  autoSaveManager w = Some m -> editorContent w = c :: s ->
  save w =
  let w1 := after getFileName w in
  let fileName := fileName_at (reading 0 w) m in
  match md_editor_files w with
  | Some Malformed =>
      (Throw SyntaxError, with_clockReads (1 + clockReads w1) w1)
  | _ =>
      (Normal tt,
       with_console (AutoSaveSucceeded fileName (reading 2 w1) :: console w)
         (with_files
            (Some (FilesText
                     (assign_property (stored w) fileName
                        {| content := Some (c :: s);
                           saveTime := Some (reading 0 w1);
                           lastOpenTime := Some (reading 1 w1) |})))
            (with_clockReads (3 + clockReads w1) w1)))
  end.
Proof.
  intros Hm Hc. apply editorContent_cons in Hc.
  unfold stored, fileName_at, reading.
  js_unfold. rewrite Hc. cbn. rewrite Hm. cbn.
  destruct (currentFileName m) as [[|c' s']|]; cbn; rewrite ?Hm; cbn;
    destruct (md_editor_files w) as [[]|]; reflexivity.
Qed.

Lemma getSavedFiles_normal w files :
  completion getSavedFiles w = Normal files ->
  getSavedFiles w = (Normal files, w).
Proof. unfold completion. rewrite getSavedFiles_run. simpl. now intros ->. Qed.

Lemma getSavedFiles_stored w files :
  completion getSavedFiles w = Normal files -> stored w = files /\ readable w.
Proof.
  unfold completion, stored, readable. rewrite getSavedFiles_run. simpl.
  destruct (md_editor_files w) as [[]|]; intros H; split; congruence.
Qed.

Lemma readable_getSavedFiles_normal w :
  readable w -> completion getSavedFiles w = Normal (stored w).
Proof.
  unfold completion, stored, readable. rewrite getSavedFiles_run. simpl.
  destruct (md_editor_files w) as [[]|]; congruence.
Qed.

Lemma bind_run {A B : Type} (m : JS A) (f : A -> JS B) w :
  (m ≫= f) w =
  match m w with
  | (Normal a, w') => f a w'
  | (Throw e, w') => (Throw e, w')
  end.
Proof. reflexivity. Qed.

Lemma invoke_run {A : Type} (method : JS A) w m :
  autoSaveManager w = Some m -> invoke method w = method w.
Proof. intros Hm. unfold invoke, mbind, JS_bind, this. now rewrite Hm. Qed.

Lemma invoke_opt_run {A : Type} (method : JS A) w m :
  autoSaveManager w = Some m ->
  invoke_opt method w = (a ← method; mret (Some a)) w.
Proof. intros Hm. unfold invoke_opt. now rewrite Hm. Qed.

(** [start()], once the prior timer is cleared: the immediate save, then
    the new timer. *)
Lemma start_run w m :
  autoSaveManager w = Some m ->
  start w =
  (save;;
   m' ← this;
   id ← setInterval (saveInterval m');
   set_this (with_interval (Some id)))
    (match interval m with
     | Some id => with_timers (delete id (timers w)) (nextTimer w) w
     | None => w
     end).
Proof.
  intros Hm. unfold start at 1. unfold mbind at 1 2. unfold JS_bind at 1 2.
  unfold this at 1. rewrite Hm. now destruct (interval m).
Qed.

(** ** Claims about the store *)

(** C6.  Whatever the store and the manager are, [save()] does nothing at
    all when the content accessor returns the empty string: it returns
    with the world as it was, so the stored item is the same and reading
    the store gives what it gave before; no record is created or
    overwritten. *)
Theorem save_empty_content_is_noop (w : World) :
  editorContent w = [] ->
  save w = (Normal tt, w)
  /\ md_editor_files (after save w) = md_editor_files w
  /\ completion getSavedFiles (after save w) = completion getSavedFiles w.
Proof.
  intros Hc. unfold after. rewrite (save_empty w Hc). now repeat split.
Qed.

Lemma save_empty_content_is_noop_witness :
  save (with_content [] two_files_world)
  = (Normal tt, with_content [] two_files_world).
Proof.
  exact (proj1 (save_empty_content_is_noop
                  (with_content [] two_files_world) eq_refl)).
Defined.

(** C2, as the code has it.  [getSavedFiles()] returns the empty mapping
    when the item is missing or is the empty string, and the parsed store
    when the item is a serialized store; when the item is any other text,
    the [SyntaxError] of [JSON.parse] reaches the caller: nothing in
    [getSavedFiles] (or in [save], which parses the same item) catches it.
    The world is never changed by the read. *)
Theorem getSavedFiles_missing_or_corrupt (w : World) :
  (md_editor_files w = None \/ md_editor_files w = Some EmptyText ->
   getSavedFiles w = (Normal ∅, w))
  /\ (forall files, md_editor_files w = Some (FilesText files) ->
      getSavedFiles w = (Normal files, w))
  /\ (md_editor_files w = Some Malformed ->
      getSavedFiles w = (Throw SyntaxError, w)).
Proof.
  rewrite getSavedFiles_run. repeat split.
  - now intros [-> | ->].
  - now intros files ->.
  - now intros ->.
Qed.

Lemma getSavedFiles_missing_or_corrupt_witness :
  getSavedFiles fresh_world = (Normal ∅, fresh_world)
  /\ getSavedFiles corrupt_world = (Throw SyntaxError, corrupt_world).
Proof.
  split.
  - exact (proj1 (getSavedFiles_missing_or_corrupt fresh_world)
                 (or_introl eq_refl)).
  - exact (proj2 (proj2 (getSavedFiles_missing_or_corrupt corrupt_world))
                 eq_refl).
Defined.

(** C2 as stated fails: with a text that is not JSON under the key,
    [getSavedFiles()] does not return the empty mapping, it throws. *)
Lemma getSavedFiles_corrupt_throws :
  md_editor_files corrupt_world = Some Malformed
  /\ completion getSavedFiles corrupt_world = Throw SyntaxError
  /\ completion getSavedFiles corrupt_world <> Normal ∅.
Proof. repeat split. discriminate. Qed.

(** ** Errors *)

(** C3, as the code has it.  [save()] has no error handling.  With content
    to save and an item that is not JSON, the [SyntaxError] of [JSON.parse]
    propagates out of [save()]; by then the file name has been fixed and
    the clock read, while the stored item, the editor buffer, the timers
    and the manager's timer handle are as before.  A timer tick therefore
    ends with an uncaught error that the host reports, and the timer stays
    armed; but in [start()] the failing immediate save aborts the call
    before [setInterval], so no timer gets armed. *)
Theorem save_error_propagates (w : World) (m : AutoSaveManager) (c : N) (s : jsstring) :
  autoSaveManager w = Some m ->
  editorContent w = c :: s ->
  md_editor_files w = Some Malformed ->
  (completion save w = Throw SyntaxError
   /\ md_editor_files (after save w) = Some Malformed
   /\ editorContent (after save w) = c :: s
   /\ timer_state (after save w) = timer_state w
   /\ currentFileName_of (after save w)
      = Some (Some (fileName_at (reading 0 w) m)))
  /\ (forall id, is_Some (timers w !! id) ->
      completion (fire id) w = Normal tt
      /\ head (console (after (fire id) w)) = Some (Uncaught SyntaxError)
      /\ md_editor_files (after (fire id) w) = Some Malformed
      /\ timer_state (after (fire id) w) = timer_state w)
  /\ (completion (invoke start) w = Throw SyntaxError
      /\ timers (after (invoke start) w)
         = match interval m with
           | Some id => delete id (timers w)
           | None => timers w
           end
      /\ nextTimer (after (invoke start) w) = nextTimer w
      /\ interval <$> autoSaveManager (after (invoke start) w)
         = Some (interval m)).
Proof.
  intros Hm Hc Hf.
  assert (Hsave : save w =
            (Throw SyntaxError,
             with_clockReads (1 + clockReads (after getFileName w))
               (after getFileName w))).
  { rewrite (save_run w m c s Hm Hc). cbv zeta. now rewrite Hf. }
  assert (Hname : after getFileName w =
            match currentFileName m with
            | Some (_ :: _) => w
            | _ => with_manager
                     (Some (with_currentFileName
                              (Some (untitled (reading 0 w))) m))
                     (with_clockReads (S (clockReads w)) w)
            end).
  { unfold after. now rewrite (getFileName_run w m Hm). }
  split; [|split].
  - unfold completion, after, currentFileName_of, timer_state, fileName_at.
    rewrite Hsave, Hname. cbn.
    destruct (currentFileName m) as [[|c' s']|] eqn:Hn; cbn;
      rewrite ?Hm, ?Hf, ?Hc; cbn; rewrite ?Hn; now repeat split.
  - intros id [delay Hid]. unfold completion, after, fire, timer_state.
    rewrite Hid, Hsave, Hname. cbn.
    destruct (currentFileName m) as [[|c' s']|] eqn:Hn; cbn;
      rewrite ?Hm, ?Hf; now repeat split.
  - set (w1 := match interval m with
               | Some id => with_timers (delete id (timers w)) (nextTimer w) w
               | None => w
               end).
    assert (Hm1 : autoSaveManager w1 = Some m)
      by (unfold w1; now destruct (interval m)).
    assert (Hc1 : editorContent w1 = c :: s)
      by (unfold w1; now destruct (interval m)).
    assert (Hf1 : md_editor_files w1 = Some Malformed)
      by (unfold w1; now destruct (interval m)).
    assert (Hstart : invoke start w =
              (Throw SyntaxError,
               with_clockReads (1 + clockReads (after getFileName w1))
                 (after getFileName w1))).
    { rewrite (invoke_run start w m Hm), (start_run w m Hm). fold w1.
      rewrite bind_run, (save_run w1 m c s Hm1 Hc1). cbv zeta.
      now rewrite Hf1. }
    unfold completion, after in *. rewrite Hstart.
    rewrite (getFileName_run w1 m Hm1). cbn.
    destruct (currentFileName m) as [[|c' s']|]; cbn; rewrite ?Hm1; cbn;
      unfold w1; destruct (interval m); now repeat split.
Qed.

Lemma save_error_propagates_witness :
  completion save corrupt_running_world = Throw SyntaxError
  /\ completion (invoke start) corrupt_running_world = Throw SyntaxError.
Proof.
  pose proof (save_error_propagates corrupt_running_world
                {| interval := Some 1%positive;
                   saveInterval := DEFAULT_INTERVAL;
                   currentFileName := Some (untitled 1700000000000) |}
                104%N (JSString.of_ascii "ello")
                eq_refl eq_refl eq_refl) as [Hsave [_ Hstart]].
  split; [exact (proj1 Hsave) | exact (proj1 Hstart)].
Defined.

(** C3 as stated fails: while the auto-save loop runs (timer 1 is live) on
    an item that is not JSON, the error is not caught inside [save()] but
    propagates out of it, the call has changed the state (the clock was
    read), and a restart with [start()] leaves the manager without any
    armed timer. *)
Lemma save_on_corrupt_storage_throws :
  timers corrupt_running_world !! 1%positive = Some DEFAULT_INTERVAL
  /\ completion save corrupt_running_world = Throw SyntaxError
  /\ clockReads (after save corrupt_running_world)
     <> clockReads corrupt_running_world
  /\ completion (invoke start) corrupt_running_world = Throw SyntaxError
  /\ timers (after (invoke start) corrupt_running_world) = ∅.
Proof. vm_compute. repeat split; discriminate. Qed.

(** ** Properties of the parsed object *)

Lemma value_truthy_true v : value_truthy v = true <-> v <> Undefined.
Proof. destruct v; cbn; split; congruence. Qed.

Lemma value_truthy_false v : value_truthy v = false <-> v = Undefined.
Proof. destruct v; cbn; split; congruence. Qed.

Lemma lookup_property_own files name file :
  files !! name = Some file -> lookup_property files name = File file.
Proof. unfold lookup_property. now intros ->. Qed.

Lemma lookup_property_own_defined files name file :
  files !! name = Some file -> lookup_property files name <> Undefined.
Proof. intros H. now rewrite (lookup_property_own files name file H). Qed.

Lemma lookup_property_undefined files name :
  lookup_property files name = Undefined
  <-> files !! name = None /\ name ∉ Object_prototype_names.
Proof.
  unfold lookup_property, Object_prototype_names.
  rewrite not_elem_of_cons.
  destruct (files !! name) as [file|].
  { split; [discriminate | intros [? _]; discriminate]. }
  destruct (decide (name = PROTO)).
  { split; [discriminate | tauto]. }
  destruct (decide (name ∈ Object_prototype_methods)).
  { split; [discriminate | tauto]. }
  tauto.
Qed.

Lemma lookup_property_inherited files name :
  files !! name = None -> name ∈ Object_prototype_names ->
  lookup_property files name
  = (if decide (name = PROTO) then ObjectPrototype else Method).
Proof.
  unfold lookup_property, Object_prototype_names. intros -> Hin.
  apply elem_of_cons in Hin.
  destruct (decide (name = PROTO)); [reflexivity|].
  destruct (decide (name ∈ Object_prototype_methods)); [reflexivity | tauto].
Qed.

Lemma assign_property_insert files name file :
  name <> PROTO \/ is_Some (files !! name) ->
  assign_property files name file = <[name := file]> files.
Proof.
  unfold assign_property. intros [Hne | [old Hold]].
  - destruct (files !! name); [reflexivity|].
    now destruct (decide (name = PROTO)).
  - now rewrite Hold.
Qed.

Lemma assign_property_PROTO files file :
  files !! PROTO = None -> assign_property files PROTO file = files.
Proof.
  unfold assign_property. intros ->. now destruct (decide (PROTO = PROTO)).
Qed.

Lemma lookup_assign_property_ne files name other file :
  other <> name -> assign_property files name file !! other = files !! other.
Proof.
  intros Hne. unfold assign_property.
  destruct (files !! name); [now rewrite lookup_insert_ne by congruence|].
  destruct (decide (name = PROTO)); [reflexivity|].
  now rewrite lookup_insert_ne by congruence.
Qed.

Lemma dom_assign_property_twice files name file1 file2 :
  dom (assign_property (assign_property files name file1) name file2)
  = dom (assign_property files name file1).
Proof.
  unfold assign_property.
  destruct (files !! name) as [old|] eqn:Hold.
  - rewrite lookup_insert_eq, insert_insert_eq. now rewrite !dom_insert_L.
  - destruct (decide (name = PROTO)); [now rewrite Hold|].
    rewrite lookup_insert_eq, insert_insert_eq. now rewrite !dom_insert_L.
Qed.

Lemma renamed_own files oldName newName file now :
  files !! oldName = Some file ->
  newName <> PROTO \/ is_Some (files !! newName) ->
  renamed files oldName newName now
  = delete oldName (<[newName := with_saveTime now file]> files).
Proof.
  intros Hold Hnew. unfold renamed.
  rewrite (lookup_property_own files oldName file Hold). cbn [spread].
  now rewrite (assign_property_insert _ _ _ Hnew).
Qed.

Lemma Object_prototype_names_trimmed name :
  name ∈ Object_prototype_names -> trimmed name.
Proof.
  unfold Object_prototype_names, Object_prototype_methods. cbn [map].
  rewrite !elem_of_cons, elem_of_nil.
  intros H. decompose [or] H; subst; try contradiction;
    (split; [reflexivity | discriminate]).
Qed.

(** ** Creating a file *)

Lemma createNewFile_run w fileName :
  createNewFile fileName w =
  let name := match fileName with
              | Some (c :: s) => c :: s
              | _ => untitled (reading 0 w)
              end in
  (Normal name,
   with_manager
     ((if JSString.truthy name && JSString.truthy (JSString.trim name)
       then with_currentFileName (Some (JSString.trim name))
       else fun m => m) <$> autoSaveManager w)
     (with_content [] (with_clockReads (S (clockReads w)) w))).
Proof.
  unfold reading. cbn [Nat.add]. cbv zeta.
  set (name := match fileName with
               | Some (c :: s) => c :: s
               | _ => untitled (clock w (clockReads w))
               end).
  unfold createNewFile, invoke_opt, setFileName, set_this, updateContent,
    new_Date, modify, mbind, mret, JS_bind, JS_ret.
  cbn [autoSaveManager with_content with_buffer with_clockReads]. fold name.
  destruct (autoSaveManager w) as [m|] eqn:Hm;
    [|unfold with_manager, with_content, with_buffer; cbn; now rewrite Hm].
  destruct (JSString.truthy name && JSString.truthy (JSString.trim name));
    cbn [autoSaveManager with_manager fmap option_fmap option_map];
    rewrite save_empty by reflexivity;
    unfold with_manager, with_content, with_buffer; cbn; now rewrite ?Hm.
Qed.

(** C1, as the code has it.  In every world, [createNewFile()] without a
    name returns the generated name, empties the editor buffer, rebinds the
    manager (when there is one) to that name and calls [save()]; the
    content being empty by then, that save returns at once, so the stored
    item is exactly what it was and the store reads as before: no record
    is added under the new name. *)
Theorem createNewFile_writes_no_record (w : World) :
  let name := untitled (reading 0 w) in
  let w' := after (createNewFile None) w in
  completion (createNewFile None) w = Normal name
  /\ editorContent w' = []
  /\ currentFileName_of w' = (fun _ => Some name) <$> autoSaveManager w
  /\ md_editor_files w' = md_editor_files w
  /\ stored w' = stored w
  /\ completion getSavedFiles w' = completion getSavedFiles w.
Proof.
  cbv zeta. unfold completion, after, currentFileName_of, stored.
  rewrite !getSavedFiles_run, createNewFile_run. cbn.
  rewrite trim_untitled. cbn.
  destruct (autoSaveManager w); now repeat split.
Qed.

(** C1 as stated fails: on a fresh store, [createNewFile()] returns the
    generated name, leaves the buffer empty and the manager bound to the
    new name, but afterwards the item is still absent, the store reads as
    empty and holds no record under the new name. *)
Lemma createNewFile_on_fresh_store :
  let w' := after (createNewFile None) fresh_world in
  completion getSavedFiles fresh_world = Normal ∅
  /\ completion (createNewFile None) fresh_world
     = Normal (untitled 1700000000000)
  /\ editorContent w' = []
  /\ currentFileName_of w' = Some (Some (untitled 1700000000000))
  /\ md_editor_files w' = None
  /\ completion getSavedFiles w' = Normal ∅
  /\ stored w' !! untitled 1700000000000 = None.
Proof. vm_compute. now repeat split. Qed.

(** ** Renaming a file *)

Lemma setFileName_run name w :
  setFileName name w =
  (Normal tt,
   if JSString.truthy (JSString.trim name)
   then with_manager
          (with_currentFileName (Some (JSString.trim name)) <$> autoSaveManager w) w
   else w).
Proof.
  unfold setFileName.
  replace (JSString.truthy name && JSString.truthy (JSString.trim name))
    with (JSString.truthy (JSString.trim name))
    by (destruct name; [reflexivity | now destruct (JSString.truthy _)]).
  now destruct (JSString.truthy (JSString.trim name)).
Qed.

Lemma renameFile_same oldName w :
  renameFile oldName oldName w = (Normal false, w).
Proof. unfold renameFile. now destruct (decide (oldName = oldName)). Qed.

Lemma renameFile_absent w files oldName newName :
  completion getSavedFiles w = Normal files ->
  lookup_property files oldName = Undefined ->
  renameFile oldName newName w = (Normal false, w).
Proof.
  intros Hfiles Hold. unfold renameFile.
  destruct (decide (oldName = newName)); [reflexivity|].
  rewrite bind_run, (getSavedFiles_normal w files Hfiles). now rewrite Hold.
Qed.

Lemma renameFile_run w files oldName newName :
  completion getSavedFiles w = Normal files ->
  lookup_property files oldName <> Undefined ->
  oldName <> newName ->
  renameFile oldName newName w =
  let w1 :=
    with_files
      (Some (FilesText (renamed files oldName newName (reading 0 w))))
      (with_clockReads (S (clockReads w)) w) in
  (Normal true,
   match autoSaveManager w with
   | None => w1
   | Some m =>
       if decide (fileName_at (reading 0 w1) m = oldName)
       then after (setFileName newName) (after getFileName w1)
       else after getFileName w1
   end).
Proof.
  intros Hfiles Hold Hne. unfold renameFile.
  destruct (decide (oldName = newName)); [contradiction|].
  rewrite bind_run, (getSavedFiles_normal w files Hfiles).
  apply value_truthy_true in Hold. rewrite Hold. cbn [negb].
  cbv zeta.
  set (w1 := with_files _ (with_clockReads (S (clockReads w)) w)).
  rewrite bind_run. unfold new_Date at 1. rewrite bind_run.
  change (localStorage_setItem _ _) with (Normal tt, w1).
  cbv iota beta.
  destruct (autoSaveManager w) as [m|] eqn:Hm.
  - assert (Hm1 : autoSaveManager w1 = Some m) by exact Hm.
    rewrite bind_run, (invoke_opt_run getFileName w1 m Hm1).
    rewrite bind_run, (getFileName_run w1 m Hm1).
    unfold after. rewrite (getFileName_run w1 m Hm1).
    cbn [mret JS_ret fst snd].
    set (w2 := match currentFileName m with
               | Some (_ :: _) => w1
               | _ => _
               end).
    assert (Hm2 : is_Some (autoSaveManager w2)).
    { unfold w2. destruct (currentFileName m) as [[|]|]; cbn; eauto. }
    destruct Hm2 as [m2 Hm2].
    destruct (decide (Some (fileName_at (reading 0 w1) m) = Some oldName)) as [E|E];
      destruct (decide (fileName_at (reading 0 w1) m = oldName)) as [E'|E'];
      try congruence.
    + rewrite !bind_run, (invoke_opt_run _ w2 m2 Hm2), bind_run.
      rewrite setFileName_run. reflexivity.
    + reflexivity.
  - assert (Hm1 : autoSaveManager w1 = None) by exact Hm.
    rewrite bind_run. unfold invoke_opt at 1. rewrite Hm1.
    destruct (decide (None = Some oldName)); [discriminate|]. reflexivity.
Qed.

Lemma getFileName_frame w :
  md_editor_files (after getFileName w) = md_editor_files w
  /\ editorBuffer (after getFileName w) = editorBuffer w.
Proof.
  unfold after, getFileName, this, mbind, JS_bind.
  destruct (autoSaveManager w) as [m|]; [|now split].
  destruct (currentFileName m) as [[|c s]|]; now split.
Qed.

Lemma setFileName_frame name w :
  md_editor_files (after (setFileName name) w) = md_editor_files w
  /\ editorBuffer (after (setFileName name) w) = editorBuffer w.
Proof.
  unfold after. rewrite setFileName_run.
  destruct (JSString.truthy (JSString.trim name)); now split.
Qed.

Lemma renameFile_storage w files oldName newName :
  completion getSavedFiles w = Normal files ->
  lookup_property files oldName <> Undefined ->
  oldName <> newName ->
  md_editor_files (after (renameFile oldName newName) w)
  = Some (FilesText (renamed files oldName newName (reading 0 w))).
Proof.
  intros Hfiles Hold Hne. unfold after at 1.
  rewrite (renameFile_run w files oldName newName Hfiles Hold Hne).
  cbv zeta. cbn [snd].
  destruct (autoSaveManager w) as [m|]; [|reflexivity].
  destruct (decide _);
    rewrite ?(proj1 (setFileName_frame _ _)), (proj1 (getFileName_frame _));
    reflexivity.
Qed.






Lemma renameFile_cases w oldName newName :
  renameFile oldName newName w = (Normal false, w)
  \/ renameFile oldName newName w = (Throw SyntaxError, w)
  \/ exists files,
       completion getSavedFiles w = Normal files
       /\ lookup_property files oldName <> Undefined /\ oldName <> newName.
Proof.
  destruct (decide (oldName = newName)) as [->|Hne].
  { left. apply renameFile_same. }
  destruct (completion getSavedFiles w) as [files|e] eqn:Hfiles.
  - destruct (value_truthy (lookup_property files oldName)) eqn:Hold.
    + right. right. exists files. now rewrite <- value_truthy_true.
    + left. apply (renameFile_absent w files); [exact Hfiles|].
      now apply value_truthy_false.
  - right. left. unfold renameFile.
    destruct (decide (oldName = newName)); [contradiction|].
    rewrite bind_run. unfold completion in Hfiles.
    rewrite getSavedFiles_run in *. cbn in Hfiles.
    now destruct (md_editor_files w) as [[]|].
Qed.

(** The current file name after [getFileName()] and, when it yielded
    [oldName], [setFileName(newName)]: what a successful [renameFile]
    leaves in the manager. *)
Lemma rebound_currentFileName w m oldName newName :
  autoSaveManager w = Some m ->
  currentFileName_of
    (if decide (fileName_at (reading 0 w) m = oldName)
     then after (setFileName newName) (after getFileName w)
     else after getFileName w)
  = Some (Some (if decide (fileName_at (reading 0 w) m = oldName)
                then if JSString.truthy (JSString.trim newName)
                     then JSString.trim newName
                     else fileName_at (reading 0 w) m
                else fileName_at (reading 0 w) m)).
Proof.
  intros Hm.
  assert (Hget : currentFileName_of (after getFileName w)
                 = Some (Some (fileName_at (reading 0 w) m))).
  { unfold currentFileName_of, after, fileName_at.
    rewrite (getFileName_run w m Hm).
    destruct (currentFileName m) as [[|c s]|] eqn:Hn; cbn;
      rewrite ?Hm; cbn; now rewrite ?Hn. }
  destruct (decide _); [|exact Hget].
  unfold after at 1. rewrite setFileName_run. cbn [snd].
  destruct (JSString.truthy (JSString.trim newName)); [|exact Hget].
  unfold currentFileName_of in *. cbn.
  destruct (autoSaveManager (after getFileName w)); [reflexivity|discriminate].
Qed.

(** C7, as the code has it.  [renameFile] leaves [currentFileName] as it
    is unless the store rename succeeded.  After a successful rename it
    calls [getFileName()], which gives an unset name the generated value
    [untitled], and when the name so obtained is [oldName] it calls
    [setFileName(newName)], which rebinds to the trimmed [newName] unless
    that is blank.  So a set name other than [oldName] is kept, the name
    [oldName] becomes the trimmed [newName], and an unset name does not
    stay unset. *)
Theorem renameFile_currentFileName
    (w : World) (m : AutoSaveManager) (oldName newName : jsstring) :
  autoSaveManager w = Some m ->
  let w' := after (renameFile oldName newName) w in
  let current := fileName_at (reading 1 w) m in
  (completion (renameFile oldName newName) w <> Normal true ->
   currentFileName_of w' = Some (currentFileName m))
  /\ (completion (renameFile oldName newName) w = Normal true ->
      currentFileName_of w'
      = Some (Some (if decide (current = oldName)
                    then if JSString.truthy (JSString.trim newName)
                         then JSString.trim newName
                         else current
                    else current)))
  /\ (forall name, currentFileName m = Some name -> name <> [] ->
      name <> oldName -> currentFileName_of w' = Some (Some name)).
Proof.
  intros Hm w' current.
  assert (Hsame : currentFileName_of w = Some (currentFileName m))
    by (unfold currentFileName_of; now rewrite Hm).
  destruct (renameFile_cases w oldName newName)
    as [Hr | [Hr | (files & Hfiles & Hold & Hne)]].
  - unfold w', completion, after. rewrite Hr. cbn.
    repeat split; try discriminate; intros; try exact Hsame.
    rewrite Hsame. congruence.
  - unfold w', completion, after. rewrite Hr. cbn.
    repeat split; try discriminate; intros; try exact Hsame.
    rewrite Hsame. congruence.
  - set (w1 := with_files
                 (Some (FilesText (renamed files oldName newName (reading 0 w))))
                 (with_clockReads (S (clockReads w)) w)).
    assert (Hm1 : autoSaveManager w1 = Some m) by exact Hm.
    assert (Hw' : currentFileName_of w'
                  = Some (Some (if decide (current = oldName)
                                then if JSString.truthy (JSString.trim newName)
                                     then JSString.trim newName
                                     else current
                                else current))).
    { unfold w', after.
      rewrite (renameFile_run w files oldName newName Hfiles Hold Hne).
      cbv zeta. cbn [snd]. fold w1. rewrite Hm.
      exact (rebound_currentFileName w1 m oldName newName Hm1). }
    repeat split.
    + unfold completion.
      rewrite (renameFile_run w files oldName newName Hfiles Hold Hne).
      cbn. congruence.
    + intros _. exact Hw'.
    + intros name Hname Hnil Hother. rewrite Hw'.
      assert (Hcur : current = name).
      { unfold current, fileName_at. rewrite Hname.
        destruct name; [contradiction | reflexivity]. }
      rewrite Hcur. now destruct (decide (name = oldName)).
Qed.

Lemma renameFile_currentFileName_witness :
  currentFileName_of
    (after (renameFile (JSString.of_ascii "a") (JSString.of_ascii "c"))
       two_files_world)
  = Some (Some (untitled 1700000000001)).
Proof.
  assert (Hr : completion
                 (renameFile (JSString.of_ascii "a") (JSString.of_ascii "c"))
                 two_files_world = Normal true) by reflexivity.
  exact (proj1 (proj2 (renameFile_currentFileName two_files_world
                         (constructor None)
                         (JSString.of_ascii "a") (JSString.of_ascii "c")
                         eq_refl)) Hr).
Defined.

(** C7 as stated fails: the manager has no current file name, the store
    renames [a] to [c], and afterwards the manager is bound to a generated
    name instead of being left unset. *)
Lemma renameFile_names_unset_manager :
  currentFileName_of two_files_world = Some None
  /\ completion
       (renameFile (JSString.of_ascii "a") (JSString.of_ascii "c"))
       two_files_world = Normal true
  /\ currentFileName_of
       (after (renameFile (JSString.of_ascii "a") (JSString.of_ascii "c"))
          two_files_world)
     = Some (Some (untitled 1700000000001))
  /\ currentFileName_of
       (after (renameFile (JSString.of_ascii "a") (JSString.of_ascii "c"))
          two_files_world)
     <> currentFileName_of two_files_world.
Proof. vm_compute. repeat split. discriminate. Qed.

(** ** Saving and opening *)

Lemma fileName_at_trimmed t m :
  well_named_by trimmed m -> trimmed (fileName_at t m).
Proof.
  unfold well_named_by, fileName_at. intros H.
  destruct (currentFileName m) as [[|c s]|].
  - apply trimmed_given.
  - now apply H.
  - apply trimmed_given.
Qed.

Lemma openFile_absent w files fileName :
  completion getSavedFiles w = Normal files ->
  lookup_property files fileName = Undefined ->
  openFile fileName w = (Normal tt, w).
Proof.
  intros Hfiles Hno. unfold openFile.
  rewrite bind_run, (getSavedFiles_normal w files Hfiles). now rewrite Hno.
Qed.

Lemma member_content_run v w :
  v <> Undefined -> member_content v w = (Normal (content (spread v)), w).
Proof. now destruct v. Qed.

Lemma openFile_run w files fileName :
  completion getSavedFiles w = Normal files ->
  lookup_property files fileName <> Undefined ->
  openFile fileName w =
  (Normal tt,
   after (setFileName fileName)
     (with_buffer (content (spread (lookup_property files fileName))) w)).
Proof.
  intros Hfiles Hfile. unfold openFile.
  rewrite bind_run, (getSavedFiles_normal w files Hfiles).
  rewrite (proj2 (value_truthy_true _) Hfile).
  rewrite bind_run, (member_content_run _ w Hfile).
  rewrite bind_run. unfold updateContent at 1, modify at 1.
  rewrite bind_run. unfold invoke_opt, after. rewrite setFileName_run.
  cbn [autoSaveManager with_buffer].
  destruct (autoSaveManager w) as [m|] eqn:Hm.
  - rewrite bind_run, setFileName_run.
    destruct (JSString.truthy (JSString.trim fileName)); cbn;
      now rewrite ?Hm.
  - cbn. destruct (JSString.truthy (JSString.trim fileName)); [|reflexivity].
    cbn. unfold with_manager, with_buffer. cbn. now rewrite Hm.
Qed.

Lemma openFile_present w m files fileName :
  autoSaveManager w = Some m ->
  completion getSavedFiles w = Normal files ->
  lookup_property files fileName <> Undefined ->
  JSString.trim fileName = fileName -> fileName <> [] ->
  openFile fileName w =
  (Normal tt,
   with_manager (Some (with_currentFileName (Some fileName) m))
     (with_buffer (content (spread (lookup_property files fileName))) w)).
Proof.
  intros Hm Hfiles Hfile Htrim Hnil.
  rewrite (openFile_run w files fileName Hfiles Hfile).
  unfold after. rewrite setFileName_run, Htrim.
  apply truthy_true in Hnil. rewrite Hnil.
  cbn. now rewrite Hm.
Qed.




(** ** The timer *)

Lemma owned_keeps {A : Type} (m : JS A) :
  keeps_timers m -> preserves timers_owned m.
Proof.
  intros Hk w Ho. specialize (Hk (timer_state w) w eq_refl).
  unfold timer_state in Hk. injection Hk as Ht _ Hi _.
  intros id. rewrite Ht, Hi. apply Ho.
Qed.

Lemma prior_cleared_run w m :
  autoSaveManager w = Some m ->
  prior_cleared w =
  match interval m with
  | Some id => with_timers (delete id (timers w)) (nextTimer w) w
  | None => w
  end.
Proof. intros Hm. unfold prior_cleared. rewrite Hm. now destruct m as [[id|] ? ?]. Qed.

Lemma prior_cleared_frame w :
  autoSaveManager (prior_cleared w) = autoSaveManager w
  /\ md_editor_files (prior_cleared w) = md_editor_files w
  /\ editorBuffer (prior_cleared w) = editorBuffer w
  /\ nextTimer (prior_cleared w) = nextTimer w.
Proof.
  unfold prior_cleared.
  destruct (autoSaveManager w) as [[[id|] ? ?]|] eqn:Hm; cbn;
    rewrite ?Hm; now repeat split.
Qed.

Lemma prior_cleared_no_timers w m :
  autoSaveManager w = Some m -> timers_owned w -> timers (prior_cleared w) = ∅.
Proof.
  intros Hm Ho. apply map_empty. intros id.
  destruct (timers (prior_cleared w) !! id) as [delay|] eqn:E; [|reflexivity].
  rewrite (prior_cleared_run w m Hm) in E.
  assert (Hlive : is_Some (timers w !! id)).
  { destruct (interval m) as [id'|]; cbn in E; [|eauto].
    destruct (decide (id' = id)) as [->|Hne].
    - now rewrite lookup_delete_eq in E.
    - rewrite lookup_delete_ne in E by exact Hne. eauto. }
  specialize (Ho id Hlive). rewrite Hm in Ho. cbn in Ho.
  injection Ho as Ho. rewrite Ho in E. cbn in E.
  now rewrite lookup_delete_eq in E.
Qed.

Lemma start_from_cleared w m :
  autoSaveManager w = Some m ->
  start w =
  (save;;
   m' ← this;
   id ← setInterval (saveInterval m');
   set_this (with_interval (Some id))) (prior_cleared w).
Proof.
  intros Hm. now rewrite (start_run w m Hm), (prior_cleared_run w m Hm).
Qed.

(** Arming the timer after the immediate save. *)
Lemma arm_run w m :
  autoSaveManager w = Some m ->
  (m' ← this; id ← setInterval (saveInterval m');
   set_this (with_interval (Some id))) w
  = (Normal tt,
     with_manager (Some (with_interval (Some (nextTimer w)) m))
       (with_timers (<[nextTimer w := saveInterval m]> (timers w))
          (Pos.succ (nextTimer w)) w)).
Proof.
  intros Hm. rewrite bind_run. unfold this at 1. rewrite Hm.
  rewrite bind_run. unfold setInterval at 1.
  unfold set_this, modify. cbn. now rewrite Hm.
Qed.

Lemma owned_start : preserves timers_owned start.
Proof.
  intros w Ho. unfold after.
  destruct (autoSaveManager w) as [m|] eqn:Hm.
  2:{ unfold start. rewrite bind_run. unfold this at 1. now rewrite Hm. }
  rewrite (start_from_cleared w m Hm), bind_run.
  pose proof (prior_cleared_no_timers w m Hm Ho) as Hempty.
  pose proof (keeps_save (timer_state (prior_cleared w)) (prior_cleared w) eq_refl)
    as Hk.
  unfold after in Hk.
  destruct (save (prior_cleared w)) as [[[]|e] w2]; cbn [snd] in *.
  - unfold timer_state in Hk. injection Hk as Ht _ Hi _.
    destruct (autoSaveManager w2) as [m2|] eqn:Hm2.
    + rewrite (arm_run w2 m2 Hm2). cbn. intros id [delay Hid].
      cbn in Hid. rewrite Ht, Hempty in Hid.
      destruct (decide (nextTimer w2 = id)) as [->|Hne]; [reflexivity|].
      rewrite lookup_insert_ne in Hid by exact Hne. discriminate.
    + rewrite bind_run. unfold this at 1. rewrite Hm2. cbn.
      intros id [delay Hid]. rewrite Ht, Hempty in Hid. discriminate.
  - unfold timer_state in Hk. injection Hk as Ht _ Hi _.
    intros id [delay Hid]. rewrite Ht, Hempty in Hid. discriminate.
Qed.

Lemma stop_run w m :
  autoSaveManager w = Some m ->
  stop w =
  (Normal tt,
   match interval m with
   | Some id =>
       with_manager (Some (with_interval None m))
         (with_timers (delete id (timers w)) (nextTimer w) w)
   | None => w
   end).
Proof.
  intros Hm. unfold stop. rewrite bind_run. unfold this at 1. rewrite Hm.
  destruct (interval m) as [id|]; [|reflexivity].
  rewrite bind_run. unfold clearInterval, set_this, modify. cbn. now rewrite Hm.
Qed.

Lemma stop_no_timers w m :
  autoSaveManager w = Some m -> timers_owned w -> timers (after stop w) = ∅.
Proof.
  intros Hm Ho. pose proof (prior_cleared_no_timers w m Hm Ho) as Hempty.
  rewrite (prior_cleared_run w m Hm) in Hempty.
  unfold after. rewrite (stop_run w m Hm). cbn [snd].
  destruct (interval m); exact Hempty.
Qed.

Lemma owned_stop : preserves timers_owned stop.
Proof.
  intros w Ho.
  destruct (autoSaveManager w) as [m|] eqn:Hm.
  2:{ unfold after, stop. rewrite bind_run. unfold this at 1. now rewrite Hm. }
  intros id [delay Hid]. rewrite (stop_no_timers w m Hm Ho) in Hid. discriminate.
Qed.

Lemma owned_perform c w : timers_owned w -> timers_owned (perform c w).
Proof.
  destruct c; simpl.
  - apply preserves_invoke, owned_start.
  - apply preserves_invoke, owned_stop.
  - apply preserves_invoke, owned_keeps, keeps_save.
  - apply preserves_invoke, owned_keeps, keeps_getFileName.
  - apply preserves_invoke, owned_keeps, keeps_setFileName.
  - apply owned_keeps, keeps_getSavedFiles.
  - apply owned_keeps, keeps_createNewFile.
  - apply owned_keeps, keeps_openFile.
  - apply owned_keeps, keeps_renameFile.
  - apply owned_keeps, keeps_deleteFile.
  - apply owned_keeps, keeps_fire.
  - apply owned_keeps, keeps_updateContent.
Qed.

Lemma owned_constructed w : constructed w -> timers_owned w.
Proof. intros [_ Ht] id [delay Hid]. rewrite Ht in Hid. discriminate. Qed.

Lemma owned_at_most_one w : timers_owned w -> size (timers w) <= 1.
Proof.
  intros Ho.
  destruct (map_to_list (timers w)) as [|[id delay] l] eqn:E.
  - apply map_to_list_empty_iff in E. rewrite E. rewrite map_size_empty. lia.
  - assert (Hid : is_Some (timers w !! id)).
    { exists delay. apply elem_of_map_to_list. rewrite E. left. }
    assert (Hsub : timers w = {[id := delay]}).
    { apply map_eq. intros i.
      destruct (decide (i = id)) as [->|Hne].
      - rewrite lookup_singleton_eq. apply elem_of_map_to_list. rewrite E. left.
      - rewrite lookup_singleton_ne by congruence.
        destruct (timers w !! i) as [d|] eqn:Ei; [|reflexivity].
        pose proof (Ho i (ex_intro _ d Ei)) as H1.
        pose proof (Ho id Hid) as H2. congruence. }
    rewrite Hsub, map_size_singleton. lia.
Qed.

Lemma reachable_invariants w :
  reachable w -> readable w /\ timers_owned w /\ named_by trimmed w.
Proof.
  induction 1 as [w Hc Hr | w c _ (Hr & Ho & Hn)].
  - auto using owned_constructed, named_constructed.
  - auto using readable_perform, owned_perform, named_perform, trimmed_given.
Qed.

Lemma save_normal w m :
  autoSaveManager w = Some m -> readable w -> completion save w = Normal tt.
Proof.
  intros Hm Hr. unfold completion, readable in *.
  destruct (editorContent w) as [|c s] eqn:Hc.
  - now rewrite (save_empty w Hc).
  - rewrite (save_run w m c s Hm Hc). cbv zeta.
    destruct (md_editor_files w) as [[]|]; try reflexivity. congruence.
Qed.

(** [save()] neither reads nor writes the timers. *)
Lemma save_ignores_timers w ts next :
  save (with_timers ts next w)
  = (completion save w, with_timers ts next (after save w)).
Proof.
  unfold completion, after.
  destruct (editorContent w) as [|c s] eqn:Hc.
  { rewrite (save_empty w Hc). now apply save_empty. }
  destruct (autoSaveManager w) as [m|] eqn:Hm.
  - rewrite (save_run w m c s Hm Hc), (save_run (with_timers ts next w) m c s Hm Hc).
    cbv zeta. unfold after.
    rewrite (getFileName_run w m Hm), (getFileName_run (with_timers ts next w) m Hm).
    cbn [md_editor_files with_timers].
    destruct (md_editor_files w) as [[]|];
      destruct (currentFileName m) as [[|c' s']|]; reflexivity.
  - apply editorContent_cons in Hc.
    unfold save, getContent, gets. rewrite !bind_run.
    cbn [editorBuffer with_timers]. rewrite Hc.
    cbn [content_truthy JSString.truthy negb].
    rewrite !bind_run. unfold getFileName. rewrite !bind_run.
    unfold this. cbn [autoSaveManager with_timers]. now rewrite Hm.
Qed.

Lemma save_prior_cleared w :
  save (prior_cleared w)
  = (completion save w,
     match autoSaveManager w with
     | Some {| interval := Some id |} =>
         with_timers (delete id (timers w)) (nextTimer w) (after save w)
     | _ => after save w
     end).
Proof.
  unfold prior_cleared.
  destruct (autoSaveManager w) as [[[id|] ? ?]|];
    try apply save_ignores_timers;
    unfold completion, after; now destruct (save w).
Qed.

Lemma save_prior_cleared_frame w :
  completion save (prior_cleared w) = completion save w
  /\ md_editor_files (after save (prior_cleared w)) = md_editor_files (after save w)
  /\ editorBuffer (after save (prior_cleared w)) = editorBuffer (after save w)
  /\ console (after save (prior_cleared w)) = console (after save w)
  /\ autoSaveManager (after save (prior_cleared w)) = autoSaveManager (after save w).
Proof.
  unfold completion at 1. unfold after at 1 3 5 7.
  rewrite save_prior_cleared. cbn [fst snd].
  destruct (autoSaveManager w) as [[[id|] ? ?]|]; now repeat split.
Qed.

(** [start()] where the immediate save succeeds. *)
Lemma start_arms w m :
  autoSaveManager w = Some m -> timers_owned w ->
  completion save w = Normal tt ->
  let w' := after start w in
  completion start w = Normal tt
  /\ timers w' = {[nextTimer w := saveInterval m]}
  /\ nextTimer w' = Pos.succ (nextTimer w)
  /\ interval <$> autoSaveManager w' = Some (Some (nextTimer w))
  /\ saveInterval <$> autoSaveManager w' = Some (saveInterval m)
  /\ md_editor_files w' = md_editor_files (after save w)
  /\ editorBuffer w' = editorBuffer (after save w)
  /\ console w' = console (after save w)
  /\ currentFileName_of w' = currentFileName_of (after save w).
Proof.
  intros Hm Ho Hr w'. unfold w', completion, after.
  rewrite (start_from_cleared w m Hm), bind_run.
  pose proof (prior_cleared_no_timers w m Hm Ho) as Hempty.
  destruct (prior_cleared_frame w) as (Hpm & _ & _ & Hpn).
  destruct (save_prior_cleared_frame w) as (Hr1 & Hf & Hc & Hl & Hmm).
  rewrite Hr in Hr1.
  pose proof (keeps_save (timer_state (prior_cleared w)) (prior_cleared w) eq_refl)
    as Hk.
  unfold timer_state in Hk. injection Hk as Ht Hn Hi Hs.
  rewrite Hpm, Hm in Hi, Hs. cbn in Hi, Hs.
  rewrite Hempty in Ht. rewrite Hpn in Hn.
  unfold completion, after in *.
  destruct (save (prior_cleared w)) as [r w2]. cbn [fst snd] in *. subst r.
  destruct (autoSaveManager w2) as [m2|] eqn:Hm2; [|discriminate].
  injection Hi as Hi. injection Hs as Hs.
  rewrite (arm_run w2 m2 Hm2). cbn.
  rewrite Ht, Hn, Hs, Hf, Hc, Hl.
  unfold currentFileName_of. rewrite <- Hmm. cbn.
  now repeat split.
Qed.

(** [initAutoSave()] on a readable storage, with no timer of an earlier
    manager alive, leads to a reachable world. *)
Lemma initAutoSave_reachable w :
  timers w = ∅ -> readable w -> reachable (after initAutoSave w).
Proof.
  intros Ht Hr.
  set (w0 := with_manager (Some (constructor None)) w).
  assert (H0 : reachable w0).
  { apply reachable_constructed; [|exact Hr].
    split; [now exists None | exact Ht]. }
  exact (reachable_perform w0 CallStart H0).
Qed.

(** [start()] where the immediate save throws. *)
Lemma start_aborts w m e :
  autoSaveManager w = Some m -> timers_owned w ->
  completion save w = Throw e ->
  completion start w = Throw e
  /\ timers (after start w) = ∅
  /\ interval <$> autoSaveManager (after start w) = Some (interval m).
Proof.
  intros Hm Ho He. unfold completion, after.
  rewrite (start_from_cleared w m Hm), bind_run.
  pose proof (prior_cleared_no_timers w m Hm Ho) as Hempty.
  destruct (prior_cleared_frame w) as (Hpm & _).
  destruct (save_prior_cleared_frame w) as (Hr1 & _).
  rewrite He in Hr1.
  pose proof (keeps_save (timer_state (prior_cleared w)) (prior_cleared w) eq_refl)
    as Hk.
  unfold timer_state in Hk. injection Hk as Ht _ Hi _.
  rewrite Hpm, Hm in Hi. cbn in Hi. rewrite Hempty in Ht.
  unfold completion, after in *.
  destruct (save (prior_cleared w)) as [r w2]. cbn [fst snd] in *. subst r.
  cbn. now repeat split.
Qed.

(** C8, as the code has it.  A manager has zero or one live timer at any
    time: every live timer is the one held in [this.interval]; this holds
    for a new manager and is kept by every call, by timer ticks and by
    edits, also by calls that throw.  [start()] clears the prior timer and
    then does one immediate [save()].  When that save returns normally,
    [start()] returns normally with exactly one timer, the one it has
    just armed with delay [saveInterval], and the store, the buffer and
    the console are as after one [save()]; a second [start()] whose save
    returns normally again leaves exactly one timer.  When the immediate
    save throws, [start()] throws the same error before it arms a timer:
    no timer is left.  [stop()] leaves no timer and unsets the handle;
    with no handle set it does nothing at all. *)
Theorem at_most_one_live_timer :
  (forall w, constructed w -> timers_owned w)
  /\ (forall w c, timers_owned w -> timers_owned (perform c w))
  /\ (forall w, timers_owned w -> size (timers w) <= 1)
  /\ (forall w m, autoSaveManager w = Some m -> timers_owned w ->
      let w1 := after (invoke start) w in
      (completion save w = Normal tt ->
       completion (invoke start) w = Normal tt
       /\ timers w1 = {[nextTimer w := saveInterval m]}
       /\ size (timers w1) = 1
       /\ interval <$> autoSaveManager w1 = Some (Some (nextTimer w))
       /\ md_editor_files w1 = md_editor_files (after save w)
       /\ editorBuffer w1 = editorBuffer (after save w)
       /\ console w1 = console (after save w)
       /\ (completion save w1 = Normal tt ->
           let w2 := after (invoke start) w1 in
           completion (invoke start) w1 = Normal tt
           /\ timers w2 = {[Pos.succ (nextTimer w) := saveInterval m]}
           /\ size (timers w2) = 1
           /\ interval <$> autoSaveManager w2
              = Some (Some (Pos.succ (nextTimer w)))))
      /\ (forall e, completion save w = Throw e ->
          completion (invoke start) w = Throw e
          /\ timers w1 = ∅
          /\ interval <$> autoSaveManager w1 = Some (interval m))
      /\ (let w3 := after (invoke stop) w in
          completion (invoke stop) w = Normal tt
          /\ timers w3 = ∅
          /\ interval <$> autoSaveManager w3 = Some None)
      /\ (interval m = None -> invoke stop w = (Normal tt, w))).
Proof.
  split; [exact owned_constructed|].
  split; [exact (fun w c => owned_perform c w)|].
  split; [exact owned_at_most_one|].
  intros w m Hm Ho w1.
  assert (Ho1 : timers_owned w1) by exact (owned_perform CallStart w Ho).
  unfold w1, completion, after in *. rewrite !(invoke_run start w m Hm) in *.
  split; [|split; [|split]].
  - intros Hs.
    destruct (start_arms w m Hm Ho Hs)
      as (S1 & S2 & S3 & S4 & S5 & S6 & S7 & S8 & _).
    unfold completion, after in *.
    rewrite S2, map_size_singleton.
    repeat (split; [assumption || reflexivity|]).
    intros Hs1.
    destruct (autoSaveManager (start w).2) as [m1|] eqn:Hm1; [|discriminate].
    injection S5 as S5.
    destruct (start_arms _ m1 Hm1 Ho1 Hs1) as (T1 & T2 & _ & T4 & _).
    unfold completion, after in *.
    rewrite !(invoke_run start _ m1 Hm1).
    rewrite T2, T4, S3, S5, map_size_singleton. now repeat split.
  - intros e He. exact (start_aborts w m e Hm Ho He).
  - rewrite !(invoke_run stop w m Hm), (stop_run w m Hm). cbn [fst snd].
    split; [reflexivity|]. split.
    + pose proof (stop_no_timers w m Hm Ho) as H.
      unfold after in H. now rewrite (stop_run w m Hm) in H.
    + destruct (interval m) as [id|] eqn:Hi; cbn; [reflexivity|].
      now rewrite Hm, <- Hi.
  - intros Hi. rewrite (invoke_run stop w m Hm), (stop_run w m Hm).
    now rewrite Hi.
Qed.

Lemma at_most_one_live_timer_witness :
  size (timers (after (invoke start) fresh_world)) = 1
  /\ timers (after (invoke stop) fresh_world) = ∅.
Proof.
  destruct at_most_one_live_timer as (Hinit & _ & _ & Hstart).
  assert (Hfresh : constructed fresh_world)
    by (split; [now exists None | reflexivity]).
  destruct (Hstart fresh_world (constructor None) eq_refl
              (Hinit fresh_world Hfresh))
    as (Hone & _ & Hstop & _).
  split.
  - exact (proj1 (proj2 (proj2 (Hone eq_refl)))).
  - exact (proj1 (proj2 Hstop)).
Defined.

(** C8 as stated fails.  A new manager, no timer alive, content in the
    buffer, and an item that is not JSON: [start()] throws out of its
    immediate save and arms no timer, and so does a second [start()];
    calling [start()] twice leaves no active timer at all. *)
Lemma start_on_corrupt_storage_arms_no_timer :
  autoSaveManager corrupt_world = Some (constructor None)
  /\ timers corrupt_world = ∅
  /\ completion (invoke start) corrupt_world = Throw SyntaxError
  /\ size (timers (after (invoke start) corrupt_world)) = 0
  /\ completion (invoke start) (after (invoke start) corrupt_world)
     = Throw SyntaxError
  /\ size (timers (after (invoke start) (after (invoke start) corrupt_world)))
     = 0.
Proof. vm_compute. now repeat split. Qed.

(** ** The current file name *)

(** C9.  That [currentFileName] is [null] or a non-empty string that is
    not only white space holds for a new manager and is kept by every
    call, timer tick and edit, hence in every reachable world (where the
    name is moreover trimmed).  [setFileName] with a blank name changes
    nothing; otherwise it rebinds [currentFileName] to the trimmed name.
    [getFileName] on an unset name assigns and returns the generated name,
    which is not blank. *)
Theorem currentFileName_never_blank :
  (forall w, constructed w -> named_by not_blank w)
  /\ (forall w c, named_by not_blank w -> named_by not_blank (perform c w))
  /\ (forall w, reachable w -> named_by not_blank w /\ named_by trimmed w)
  /\ (forall w name, blank name -> setFileName name w = (Normal tt, w))
  /\ (forall w m name, autoSaveManager w = Some m -> ~ blank name ->
      setFileName name w
      = (Normal tt,
         with_manager
           (Some (with_currentFileName (Some (JSString.trim name)) m)) w))
  /\ (forall w m, autoSaveManager w = Some m -> currentFileName m = None ->
      completion getFileName w = Normal (untitled (reading 0 w))
      /\ currentFileName_of (after getFileName w)
         = Some (Some (untitled (reading 0 w)))
      /\ not_blank (untitled (reading 0 w))).
Proof.
  split; [exact (named_constructed not_blank)|].
  split; [exact (fun w c => named_perform not_blank not_blank_given c w)|].
  split.
  { intros w Hreach. split.
    - exact (named_reachable not_blank not_blank_given w Hreach).
    - exact (named_reachable trimmed trimmed_given w Hreach). }
  split; [|split].
  - intros w name Hblank. rewrite setFileName_run.
    unfold blank in Hblank. now rewrite Hblank.
  - intros w m name Hm Hblank. rewrite setFileName_run.
    apply truthy_true in Hblank. rewrite Hblank. now rewrite Hm.
  - intros w m Hm Hnone. unfold completion, after, currentFileName_of.
    rewrite (getFileName_run w m Hm). unfold fileName_at. rewrite Hnone.
    cbn. repeat split; apply not_blank_given.
Qed.

Lemma currentFileName_never_blank_witness :
  named_by not_blank
    (perform (CallSetFileName (JSString.of_ascii "  notes ")) fresh_world)
  /\ setFileName (JSString.of_ascii "   ") fresh_world = (Normal tt, fresh_world)
  /\ completion getFileName fresh_world = Normal (untitled 1700000000000).
Proof.
  destruct currentFileName_never_blank
    as (Hinit & Hstep & _ & Hblank & _ & Hget).
  assert (Hfresh : constructed fresh_world)
    by (split; [now exists None | reflexivity]).
  split; [exact (Hstep fresh_world _ (Hinit fresh_world Hfresh))|].
  split; [exact (Hblank fresh_world (JSString.of_ascii "   ") eq_refl)|].
  exact (proj1 (Hget fresh_world (constructor None) eq_refl eq_refl)).
Defined.

(** * Further properties of the code *)

(** ** Deleting a file *)

Lemma deleteFile_absent w files fileName :
  completion getSavedFiles w = Normal files ->
  lookup_property files fileName = Undefined ->
  deleteFile fileName w = (Normal false, w).
Proof.
  intros Hfiles Hno. unfold deleteFile.
  rewrite bind_run, (getSavedFiles_normal w files Hfiles). now rewrite Hno.
Qed.

Lemma deleteFile_present w files fileName :
  completion getSavedFiles w = Normal files ->
  lookup_property files fileName <> Undefined ->
  deleteFile fileName w
  = (Normal true, with_files (Some (FilesText (delete fileName files))) w).
Proof.
  intros Hfiles Hfile. unfold deleteFile.
  rewrite bind_run, (getSavedFiles_normal w files Hfiles).
  now rewrite (proj2 (value_truthy_true _) Hfile).
Qed.

(** [deleteFile(name)] on a store that reads as [files].  When [name] is
    neither a file of the store nor a name inherited from
    [Object.prototype], it returns [false] and changes nothing.  When
    [name] is a file, it returns [true] and the persisted store has lost
    exactly that record: every other file is as before and the store has
    one entry fewer; nothing but the stored item changes.  When [name] is
    not a file but an inherited name, [files[name]] is truthy all the
    same: the call, when it returns, returns [true] and has written the
    store back with every file in it. *)
Theorem deleteFile_removes_record
    (w : World) (files : FileStore) (fileName : jsstring) :
  completion getSavedFiles w = Normal files ->
  let w' := after (deleteFile fileName) w in
  (files !! fileName = None -> fileName ∉ Object_prototype_names ->
   deleteFile fileName w = (Normal false, w))
  /\ (forall file, files !! fileName = Some file ->
      completion (deleteFile fileName) w = Normal true
      /\ w' = with_files (Some (JSON_stringify (delete fileName files))) w
      /\ completion getSavedFiles w' = Normal (delete fileName files)
      /\ stored w' !! fileName = None
      /\ (forall other, other <> fileName -> stored w' !! other = files !! other)
      /\ size (stored w') = pred (size files))
  /\ (files !! fileName = None -> fileName ∈ Object_prototype_names ->
      forall r, completion (deleteFile fileName) w = Normal r ->
      r = true
      /\ w' = with_files (Some (JSON_stringify files)) w
      /\ stored w' = files).
Proof.
  intros Hfiles w'. split; [|split].
  - intros Hno Hnot. apply (deleteFile_absent w files); [exact Hfiles|].
    now apply lookup_property_undefined.
  - intros file Hfile. unfold w', completion, after.
    rewrite (deleteFile_present w files fileName Hfiles
               (lookup_property_own_defined _ _ _ Hfile)).
    rewrite getSavedFiles_run. unfold stored. cbn.
    repeat split.
    + apply lookup_delete_eq.
    + intros other Hne. now rewrite lookup_delete_ne.
    + now rewrite map_size_delete, Hfile.
  - intros Hno Hin r. unfold w', completion, after.
    assert (Hdef : lookup_property files fileName <> Undefined).
    { rewrite lookup_property_undefined. tauto. }
    rewrite (deleteFile_present w files fileName Hfiles Hdef).
    rewrite (delete_id files fileName Hno). cbn. intros Hr.
    repeat split. congruence.
Qed.

Lemma deleteFile_removes_record_witness :
  completion (deleteFile (JSString.of_ascii "a")) two_files_world = Normal true
  /\ stored (after (deleteFile (JSString.of_ascii "a")) two_files_world)
       !! JSString.of_ascii "b" = Some record_b
  /\ stored (after (deleteFile (JSString.of_ascii "toString")) two_files_world)
     = <[JSString.of_ascii "a" := record_a]>
         {[JSString.of_ascii "b" := record_b]}.
Proof.
  destruct (deleteFile_removes_record two_files_world
              (<[JSString.of_ascii "a" := record_a]>
                 {[JSString.of_ascii "b" := record_b]})
              (JSString.of_ascii "a") eq_refl) as (_ & Hdel & _).
  destruct (deleteFile_removes_record two_files_world
              (<[JSString.of_ascii "a" := record_a]>
                 {[JSString.of_ascii "b" := record_b]})
              (JSString.of_ascii "toString") eq_refl) as (_ & _ & Hinh).
  destruct (Hdel record_a eq_refl) as (Hr & _ & _ & _ & Hother & _).
  assert (Hne : JSString.of_ascii "b" <> JSString.of_ascii "a") by discriminate.
  assert (Hin : JSString.of_ascii "toString" ∈ Object_prototype_names).
  { unfold Object_prototype_names, Object_prototype_methods. cbn [map].
    rewrite !elem_of_cons. tauto. }
  split; [exact Hr|]. split; [exact (Hother _ Hne)|].
  exact (proj2 (proj2 (Hinh eq_refl Hin true eq_refl))).
Defined.

(** Deleting twice on a readable storage.  For a name that is not
    inherited from [Object.prototype], whatever the first
    [deleteFile(name)] did, a second one returns [false] and changes
    nothing.  For an inherited name the second call finds [files[name]]
    truthy again: when it returns, it returns [true]. *)
Theorem deleteFile_twice (w : World) (fileName : jsstring) :
  readable w ->
  let w' := after (deleteFile fileName) w in
  (fileName ∉ Object_prototype_names ->
   deleteFile fileName w' = (Normal false, w'))
  /\ (fileName ∈ Object_prototype_names ->
      forall r, completion (deleteFile fileName) w' = Normal r -> r = true).
Proof.
  intros Hr w'.
  pose proof (readable_getSavedFiles_normal w Hr) as Hfiles.
  assert (Hw' : exists files',
             completion getSavedFiles w' = Normal files'
             /\ (files' !! fileName = None)).
  { destruct (value_truthy (lookup_property (stored w) fileName)) eqn:Hv.
    - apply value_truthy_true in Hv. unfold w', after.
      rewrite (deleteFile_present w _ fileName Hfiles Hv). cbn [snd].
      exists (delete fileName (stored w)). split.
      + unfold completion. now rewrite getSavedFiles_run.
      + apply lookup_delete_eq.
    - apply value_truthy_false in Hv. unfold w', after.
      rewrite (deleteFile_absent w _ fileName Hfiles Hv). cbn [snd].
      exists (stored w). split; [exact Hfiles|].
      now apply lookup_property_undefined in Hv. }
  destruct Hw' as (files' & Hfiles' & Hno).
  split.
  - intros Hnot. apply (deleteFile_absent w' files'); [exact Hfiles'|].
    now apply lookup_property_undefined.
  - intros Hin r. unfold completion.
    assert (Hdef : lookup_property files' fileName <> Undefined).
    { rewrite lookup_property_undefined. tauto. }
    rewrite (deleteFile_present w' files' fileName Hfiles' Hdef). cbn.
    congruence.
Qed.

Lemma deleteFile_twice_witness :
  deleteFile (JSString.of_ascii "a")
    (after (deleteFile (JSString.of_ascii "a")) two_files_world)
  = (Normal false, after (deleteFile (JSString.of_ascii "a")) two_files_world).
Proof.
  assert (Hr : readable two_files_world) by discriminate.
  assert (Ha : JSString.of_ascii "a" ∉ Object_prototype_names).
  { unfold Object_prototype_names, Object_prototype_methods. cbn [map].
    rewrite !not_elem_of_cons. repeat split; try discriminate.
    apply not_elem_of_nil. }
  exact (proj1 (deleteFile_twice two_files_world (JSString.of_ascii "a") Hr) Ha).
Defined.

(** ** The file operations on a text that is not JSON *)

(** With an item that is not JSON, [openFile], [deleteFile] and
    [renameFile] (to a different name) throw the [SyntaxError] of
    [JSON.parse] and leave the world as it was; [renameFile] to the same
    name still returns [false], since it compares the names before it
    reads the store. *)
Theorem file_operations_on_corrupt_storage (w : World) (name other : jsstring) :
  md_editor_files w = Some Malformed ->
  openFile name w = (Throw SyntaxError, w)
  /\ deleteFile name w = (Throw SyntaxError, w)
  /\ (other <> name -> renameFile name other w = (Throw SyntaxError, w))
  /\ renameFile name name w = (Normal false, w).
Proof.
  intros Hf.
  assert (Hread : getSavedFiles w = (Throw SyntaxError, w))
    by (rewrite getSavedFiles_run; now rewrite Hf).
  repeat split.
  - unfold openFile. now rewrite bind_run, Hread.
  - unfold deleteFile. now rewrite bind_run, Hread.
  - intros Hne. unfold renameFile.
    destruct (decide (name = other)); [congruence|].
    now rewrite bind_run, Hread.
  - apply renameFile_same.
Qed.

Lemma file_operations_on_corrupt_storage_witness :
  deleteFile (JSString.of_ascii "a") corrupt_world
  = (Throw SyntaxError, corrupt_world).
Proof.
  exact (proj1 (proj2 (file_operations_on_corrupt_storage corrupt_world
                         (JSString.of_ascii "a") (JSString.of_ascii "b")
                         eq_refl))).
Defined.

(** ** Saving *)

Lemma fileName_at_not_nil t m : fileName_at t m <> [].
Proof.
  unfold fileName_at. destruct (currentFileName m) as [[|c s]|];
    try apply untitled_not_nil. discriminate.
Qed.

Lemma fileName_at_set t m f :
  currentFileName m = Some f -> f <> [] -> fileName_at t m = f.
Proof.
  intros Hf Hnil. unfold fileName_at. rewrite Hf. now destruct f.
Qed.

Lemma getFileName_binds w m :
  autoSaveManager w = Some m ->
  exists m', autoSaveManager (after getFileName w) = Some m'
  /\ currentFileName m' = Some (fileName_at (reading 0 w) m)
  /\ interval m' = interval m /\ saveInterval m' = saveInterval m.
Proof.
  intros Hm. unfold after, fileName_at. rewrite (getFileName_run w m Hm).
  destruct (currentFileName m) as [[|c s]|] eqn:Hn; cbn [snd].
  - eexists. split; [reflexivity|]. now repeat split.
  - exists m. now repeat split.
  - eexists. split; [reflexivity|]. now repeat split.
Qed.

(** [save()] with content, on a store that reads as [files]. *)
Lemma save_on_store w m files c x :
  autoSaveManager w = Some m ->
  editorContent w = c :: x ->
  completion getSavedFiles w = Normal files ->
  let f := fileName_at (reading 0 w) m in
  let w' := after save w in
  exists saved m' logTime,
    completion save w = Normal tt
    /\ content saved = Some (c :: x)
    /\ md_editor_files w' = Some (FilesText (assign_property files f saved))
    /\ autoSaveManager w' = Some m'
    /\ currentFileName m' = Some f
    /\ interval m' = interval m
    /\ saveInterval m' = saveInterval m
    /\ editorBuffer w' = Some (c :: x)
    /\ timers w' = timers w
    /\ nextTimer w' = nextTimer w
    /\ console w' = AutoSaveSucceeded f logTime :: console w.
Proof.
  intros Hm Hc Hfiles f w'.
  destruct (getSavedFiles_stored w files Hfiles) as [Hstored Hread].
  destruct (getFileName_binds w m Hm) as (m' & Hm' & Hn' & Hi' & Hs').
  destruct (getFileName_frame w) as [_ Hc'].
  pose proof (keeps_getFileName (timer_state w) w eq_refl) as Hk.
  unfold timer_state in Hk. injection Hk as Ht Hnx _ _.
  set (saved := {| content := Some (c :: x);
                   saveTime := Some (reading 0 (after getFileName w));
                   lastOpenTime := Some (reading 1 (after getFileName w)) |}).
  assert (Hsave : save w =
            (Normal tt,
             with_console
               (AutoSaveSucceeded f (reading 2 (after getFileName w)) :: console w)
               (with_files (Some (FilesText (assign_property files f saved)))
                  (with_clockReads (3 + clockReads (after getFileName w))
                     (after getFileName w))))).
  { rewrite (save_run w m c x Hm Hc). cbv zeta. fold f saved.
    rewrite Hstored. unfold readable in Hread.
    destruct (md_editor_files w) as [[]|]; try reflexivity. congruence. }
  exists saved, m', (reading 2 (after getFileName w)).
  unfold w', completion. unfold after at 1 2 3 4 5 6 7. rewrite Hsave.
  cbn [fst snd md_editor_files autoSaveManager editorBuffer timers nextTimer
       console with_console with_files with_clockReads].
  apply editorContent_cons in Hc.
  rewrite Hc', Hc, Ht, Hnx. now repeat split.
Qed.

(** A [save()] of non-empty content that returns normally, on a store
    that reads as [files]: it has persisted [files] with the object that
    holds the buffer assigned to the current file name, so with the record
    of the current file replaced, except for the name [__proto__] when
    the store has no file of that name, where nothing is stored.  The
    records of all other files are kept.  The manager is then bound to
    that file name (a generated one if it had none); the buffer, the
    timers and the timer handle are untouched, and one line is logged. *)
Theorem save_writes_current_file
    (w : World) (m : AutoSaveManager) (files : FileStore) (c : N) (x : jsstring) :
  autoSaveManager w = Some m ->
  editorContent w = c :: x ->
  completion getSavedFiles w = Normal files ->
  completion save w = Normal tt ->
  let f := fileName_at (reading 0 w) m in
  let w' := after save w in
  (exists saved, content saved = Some (c :: x)
      /\ completion getSavedFiles w' = Normal (assign_property files f saved)
      /\ (f <> PROTO \/ is_Some (files !! f) -> stored w' !! f = Some saved)
      /\ (f = PROTO -> files !! f = None -> stored w' = files))
  /\ (forall other, other <> f -> stored w' !! other = files !! other)
  /\ currentFileName_of w' = Some (Some f)
  /\ editorBuffer w' = Some (c :: x)
  /\ timer_state w' = timer_state w
  /\ length (console w') = S (length (console w)).
Proof.
  intros Hm Hc Hfiles _ f w'.
  destruct (save_on_store w m files c x Hm Hc Hfiles)
    as (saved & m' & logTime & Hr & Hcs & Hst & Hm' & Hn & Hi & Hs & Hc' & Ht & Hnx & Hl).
  fold f w' in Hst, Hm', Hn, Hc', Ht, Hnx, Hl.
  split; [|repeat split].
  - exists saved. split; [exact Hcs|]. split; [|split].
    + unfold completion. now rewrite getSavedFiles_run, Hst.
    + intros Hf. unfold stored. rewrite Hst.
      rewrite (assign_property_insert _ _ _ Hf). apply lookup_insert_eq.
    + intros Hf Hno. unfold stored. rewrite Hst.
      rewrite Hf in *. now rewrite (assign_property_PROTO _ _ Hno).
  - intros other Hne. unfold stored. rewrite Hst.
    now apply lookup_assign_property_ne.
  - unfold currentFileName_of. rewrite Hm'. cbn. now rewrite Hn.
  - exact Hc'.
  - unfold timer_state. rewrite Ht, Hnx, Hm', Hm. cbn. now rewrite Hi, Hs.
  - rewrite Hl. reflexivity.
Qed.

Lemma save_writes_current_file_witness :
  currentFileName_of (after save editing_f_world)
  = Some (Some (JSString.of_ascii "f"))
  /\ editorBuffer (after save editing_f_world) = Some (JSString.of_ascii "x").
Proof.
  destruct (save_writes_current_file editing_f_world
              (with_currentFileName (Some (JSString.of_ascii "f"))
                 (constructor None))
              ∅ 120%N [] eq_refl eq_refl eq_refl eq_refl)
    as (_ & _ & Hn & Hb & _).
  split; [exact Hn | exact Hb].
Defined.

(** Saving again overwrites: when two [save()]s of the same buffer in a
    row return normally, the store has the same file names after the
    second as after the first, one record per name; the current file
    (other than a [__proto__] that the store does not have) holds the
    buffer, and the other files are as they were. *)
Theorem save_twice_same_files
    (w : World) (m : AutoSaveManager) (files : FileStore) (c : N) (x : jsstring) :
  autoSaveManager w = Some m ->
  editorContent w = c :: x ->
  completion getSavedFiles w = Normal files ->
  let f := fileName_at (reading 0 w) m in
  let w1 := after save w in
  let w2 := after save w1 in
  completion save w = Normal tt ->
  completion save w1 = Normal tt ->
  dom (stored w2) = dom (stored w1)
  /\ size (stored w2) = size (stored w1)
  /\ (f <> PROTO \/ is_Some (files !! f) ->
      exists saved, stored w2 !! f = Some saved /\ content saved = Some (c :: x))
  /\ (forall other, other <> f -> stored w2 !! other = files !! other).
Proof.
  intros Hm Hc Hfiles f w1 w2 _ _.
  destruct (save_on_store w m files c x Hm Hc Hfiles)
    as (s1 & m1 & t1 & _ & _ & Hst1 & Hm1 & Hn1 & _ & _ & Hc1 & _).
  fold f w1 in Hst1, Hm1, Hn1, Hc1.
  apply editorContent_cons in Hc1.
  assert (Hfiles1 : completion getSavedFiles w1
                    = Normal (assign_property files f s1))
    by (unfold completion; now rewrite getSavedFiles_run, Hst1).
  destruct (save_on_store w1 m1 _ c x Hm1 Hc1 Hfiles1)
    as (s2 & m2 & t2 & _ & Hcs2 & Hst2 & _).
  rewrite (fileName_at_set _ m1 f Hn1 (fileName_at_not_nil _ m)) in Hst2.
  fold w2 in Hst2.
  pose proof (dom_assign_property_twice files f s1 s2) as Hdom.
  unfold stored. rewrite Hst1, Hst2.
  split; [exact Hdom|]. split; [|split].
  - now rewrite <- !size_dom, Hdom.
  - intros Hf. exists s2. split; [|exact Hcs2].
    rewrite (assign_property_insert files f s1 Hf).
    rewrite assign_property_insert by (right; rewrite lookup_insert_eq; eauto).
    apply lookup_insert_eq.
  - intros other Hne. now rewrite !lookup_assign_property_ne by congruence.
Qed.

Lemma save_twice_same_files_witness :
  size (stored (after save (after save editing_f_world)))
  = size (stored (after save editing_f_world)).
Proof.
  exact (proj1 (proj2
           (save_twice_same_files editing_f_world
              (with_currentFileName (Some (JSString.of_ascii "f"))
                 (constructor None))
              ∅ 120%N [] eq_refl eq_refl eq_refl eq_refl eq_refl))).
Defined.

(** [setFileName] does not move a record: save under [f], rebind the
    manager to another (trimmed, non-empty) name [g] and save again, both
    saves returning normally, and the store holds the buffer twice,
    under [f] and under [g] (for names that an assignment stores, that
    is, other than a [__proto__] that the store does not have). *)
Theorem setFileName_then_save_duplicates
    (w : World) (m : AutoSaveManager) (files : FileStore)
    (c : N) (x g : jsstring) :
  autoSaveManager w = Some m ->
  editorContent w = c :: x ->
  completion getSavedFiles w = Normal files ->
  trimmed g ->
  let f := fileName_at (reading 0 w) m in
  g <> f ->
  f <> PROTO \/ is_Some (files !! f) ->
  g <> PROTO \/ is_Some (files !! g) ->
  let w1 := after save w in
  let w2 := after (invoke (setFileName g)) w1 in
  let w3 := after save w2 in
  completion save w = Normal tt ->
  completion save w2 = Normal tt ->
  md_editor_files w2 = md_editor_files w1
  /\ (exists under_f, stored w3 !! f = Some under_f
                      /\ content under_f = Some (c :: x))
  /\ (exists under_g, stored w3 !! g = Some under_g
                      /\ content under_g = Some (c :: x))
  /\ currentFileName_of w3 = Some (Some g).
Proof.
  intros Hm Hc Hfiles [Htrim Hnil] f Hne Hf Hg w1 w2 w3 _ _.
  destruct (save_on_store w m files c x Hm Hc Hfiles)
    as (s1 & m1 & t1 & _ & Hcs1 & Hst1 & Hm1 & _ & _ & _ & Hc1 & _).
  fold f w1 in Hst1, Hm1, Hc1.
  rewrite (assign_property_insert _ _ _ Hf) in Hst1.
  assert (Hw2 : w2 = with_manager (Some (with_currentFileName (Some g) m1)) w1).
  { unfold w2, after. rewrite (invoke_run _ w1 m1 Hm1), setFileName_run.
    rewrite Htrim. apply truthy_true in Hnil. rewrite Hnil. cbn.
    now rewrite Hm1. }
  assert (Hst2 : md_editor_files w2 = md_editor_files w1) by now rewrite Hw2.
  assert (Hm2 : autoSaveManager w2
                = Some (with_currentFileName (Some g) m1)) by now rewrite Hw2.
  assert (Hc2 : editorContent w2 = c :: x)
    by (apply editorContent_cons; now rewrite Hw2).
  assert (Hfiles2 : completion getSavedFiles w2 = Normal (<[f := s1]> files))
    by (unfold completion; now rewrite getSavedFiles_run, Hst2, Hst1).
  destruct (save_on_store w2 _ _ c x Hm2 Hc2 Hfiles2)
    as (s2 & m3 & t3 & _ & Hcs3 & Hst3 & Hm3 & Hn3 & _).
  rewrite (fileName_at_set (reading 0 w2) (with_currentFileName (Some g) m1)
             g eq_refl Hnil) in Hst3, Hn3.
  fold w3 in Hst3, Hm3.
  rewrite assign_property_insert in Hst3
    by (rewrite lookup_insert_ne by congruence; exact Hg).
  split; [exact Hst2|].
  unfold stored, currentFileName_of. rewrite Hst3, Hm3. cbn. rewrite Hn3.
  repeat split.
  - exists s1. rewrite lookup_insert_ne by congruence.
    rewrite lookup_insert_eq. now split.
  - exists s2. rewrite lookup_insert_eq. now split.
Qed.

Lemma setFileName_then_save_duplicates_witness :
  currentFileName_of
    (after save
       (after (invoke (setFileName (JSString.of_ascii "g")))
          (after save editing_f_world)))
  = Some (Some (JSString.of_ascii "g")).
Proof.
  assert (Hg : trimmed (JSString.of_ascii "g"))
    by (split; [reflexivity | discriminate]).
  assert (Hne : JSString.of_ascii "g" <> JSString.of_ascii "f") by discriminate.
  assert (Hfp : JSString.of_ascii "f" <> PROTO) by discriminate.
  assert (Hgp : JSString.of_ascii "g" <> PROTO) by discriminate.
  exact (proj2 (proj2 (proj2
           (setFileName_then_save_duplicates editing_f_world
              (with_currentFileName (Some (JSString.of_ascii "f"))
                 (constructor None))
              ∅ 120%N [] (JSString.of_ascii "g")
              eq_refl eq_refl eq_refl Hg Hne (or_introl Hfp) (or_introl Hgp)
              eq_refl eq_refl)))).
Defined.

(** [deleteFile] does not unbind the manager: only the stored item
    changes, so after deleting the current file the manager still names
    it, and the next [save()] of a non-empty buffer, when it returns
    normally, puts a record under that name back into the store (the
    name not being [__proto__], under which nothing would be stored). *)
Theorem deleteFile_current_file_comes_back
    (w : World) (m : AutoSaveManager) (files : FileStore) (file : FileRecord)
    (f : jsstring) (c : N) (x : jsstring) :
  autoSaveManager w = Some m ->
  currentFileName m = Some f -> f <> [] -> f <> PROTO ->
  editorContent w = c :: x ->
  completion getSavedFiles w = Normal files ->
  files !! f = Some file ->
  let w1 := after (deleteFile f) w in
  let w2 := after save w1 in
  completion save w1 = Normal tt ->
  stored w1 !! f = None
  /\ currentFileName_of w1 = Some (Some f)
  /\ (exists saved, stored w2 !! f = Some saved /\ content saved = Some (c :: x))
  /\ size (stored w2) = size files.
Proof.
  intros Hm Hn Hnil Hproto Hc Hfiles Hfile w1 w2 _.
  assert (Hw1 : w1 = with_files (Some (FilesText (delete f files))) w).
  { unfold w1, after.
    now rewrite (deleteFile_present w files f Hfiles
                   (lookup_property_own_defined _ _ _ Hfile)). }
  assert (Hm1 : autoSaveManager w1 = Some m) by now rewrite Hw1.
  assert (Hc1 : editorContent w1 = c :: x) by now rewrite Hw1.
  assert (Hfiles1 : completion getSavedFiles w1 = Normal (delete f files))
    by (unfold completion; rewrite getSavedFiles_run; now rewrite Hw1).
  destruct (save_on_store w1 m _ c x Hm1 Hc1 Hfiles1)
    as (s2 & m2 & t2 & _ & Hcs2 & Hst2 & _).
  rewrite (fileName_at_set _ m f Hn Hnil) in Hst2. fold w2 in Hst2.
  rewrite assign_property_insert in Hst2 by now left.
  repeat split.
  - unfold stored. rewrite Hw1. cbn. apply lookup_delete_eq.
  - unfold currentFileName_of. rewrite Hm1. cbn. now rewrite Hn.
  - exists s2. unfold stored. rewrite Hst2. now rewrite lookup_insert_eq.
  - unfold stored. rewrite Hst2.
    rewrite map_size_insert_None by apply lookup_delete_eq.
    rewrite map_size_delete, Hfile.
    assert (size files <> 0).
    { intros E. apply map_size_empty_iff in E. rewrite E in Hfile. discriminate. }
    lia.
Qed.

Lemma deleteFile_current_file_comes_back_witness :
  stored (after (deleteFile (JSString.of_ascii "a")) running_on_a_world)
    !! JSString.of_ascii "a" = None
  /\ size (stored (after save
                     (after (deleteFile (JSString.of_ascii "a"))
                        running_on_a_world))) = 2.
Proof.
  assert (Hnil : JSString.of_ascii "a" <> []) by discriminate.
  assert (Hp : JSString.of_ascii "a" <> PROTO) by discriminate.
  destruct (deleteFile_current_file_comes_back running_on_a_world
              {| interval := Some 1%positive;
                 saveInterval := DEFAULT_INTERVAL;
                 currentFileName := Some (JSString.of_ascii "a") |}
              (<[JSString.of_ascii "a" := record_a]>
                 {[JSString.of_ascii "b" := record_b]})
              record_a (JSString.of_ascii "a") 104%N (JSString.of_ascii "ello")
              eq_refl eq_refl Hnil Hp eq_refl eq_refl eq_refl eq_refl)
    as (Hgone & _ & _ & Hsize).
  split; [exact Hgone | exact Hsize].
Defined.

(** ** The auto-save loop *)

(** Teardown: [onUnmounted] never throws, also when no manager was ever
    created.  Where every live timer is the manager's own, it leaves no
    timer behind, so that no later tick does anything; the store and the
    buffer are untouched. *)
Theorem onUnmounted_ends_the_loop (w : World) :
  timers_owned w ->
  let w' := after onUnmounted w in
  completion onUnmounted w = Normal tt
  /\ timers w' = ∅
  /\ (forall id, fire id w' = (Normal tt, w'))
  /\ md_editor_files w' = md_editor_files w
  /\ editorContent w' = editorContent w
  /\ interval <$> autoSaveManager w' = (fun _ => None) <$> autoSaveManager w.
Proof.
  intros Ho w'.
  assert (Hrun : onUnmounted w =
            (Normal tt,
             match autoSaveManager w with
             | Some m => after stop w
             | None => w
             end)).
  { unfold onUnmounted. rewrite bind_run.
    destruct (autoSaveManager w) as [m|] eqn:Hm.
    - rewrite (invoke_opt_run stop w m Hm), bind_run.
      unfold after. now rewrite (stop_run w m Hm).
    - unfold invoke_opt. now rewrite Hm. }
  assert (Hempty : timers w' = ∅).
  { unfold w', after. rewrite Hrun. cbn [snd].
    destruct (autoSaveManager w) as [m|] eqn:Hm.
    - apply (stop_no_timers w m Hm Ho).
    - apply map_empty. intros id.
      destruct (timers w !! id) as [d|] eqn:E; [|reflexivity].
      specialize (Ho id (ex_intro _ d E)). rewrite Hm in Ho. discriminate. }
  split; [unfold completion; now rewrite Hrun|].
  split; [exact Hempty|]. split.
  { intros id. unfold fire. now rewrite Hempty, lookup_empty. }
  unfold w', after. rewrite Hrun. cbn [snd].
  destruct (autoSaveManager w) as [m|] eqn:Hm; [|now rewrite Hm].
  unfold after. rewrite (stop_run w m Hm). cbn [snd].
  destruct (interval m) eqn:Hi; cbn; rewrite ?Hm; cbn; rewrite ?Hi; now repeat split.
Qed.

Lemma onUnmounted_ends_the_loop_witness :
  timers (after onUnmounted running_on_a_world) = ∅.
Proof.
  assert (Ho : timers_owned running_on_a_world).
  { intros id [delay Hid]. cbn in Hid.
    destruct (decide (id = 1%positive)) as [->|Hne]; [reflexivity|].
    rewrite lookup_singleton_ne in Hid by congruence. discriminate. }
  exact (proj1 (proj2 (onUnmounted_ends_the_loop running_on_a_world Ho))).
Defined.

Lemma untitled_not_PROTO t : untitled t <> PROTO.
Proof. discriminate. Qed.

Lemma save_normal_readable w m c s :
  autoSaveManager w = Some m -> editorContent w = c :: s ->
  completion save w = Normal tt -> readable w.
Proof.
  intros Hm Hc. unfold completion, readable.
  rewrite (save_run w m c s Hm Hc). cbv zeta.
  destruct (md_editor_files w) as [[]|]; cbn; congruence.
Qed.

(** [initAutoSave()] with no timer alive makes a new manager with the
    default interval of 10000 ms and starts it.  When the immediate save
    returns normally, the manager runs with exactly one timer, the one it
    holds; the save has put a non-empty buffer into the store under a
    generated name, to which the manager is now bound, while with an
    empty buffer nothing is stored and the manager has no file name yet.
    When the immediate save throws, [initAutoSave()] throws the same
    error and leaves a manager without any timer. *)
Theorem initAutoSave_starts_the_loop (w : World) :
  timers w = ∅ ->
  let w0 := with_manager (Some (constructor None)) w in
  let w' := after initAutoSave w in
  (completion save w0 = Normal tt ->
   completion initAutoSave w = Normal tt
   /\ timers w' = {[nextTimer w := DEFAULT_INTERVAL]}
   /\ interval <$> autoSaveManager w' = Some (Some (nextTimer w))
   /\ saveInterval <$> autoSaveManager w' = Some DEFAULT_INTERVAL
   /\ (editorContent w = [] ->
       md_editor_files w' = md_editor_files w
       /\ currentFileName_of w' = Some None)
   /\ (forall c x, editorContent w = c :: x ->
       currentFileName_of w' = Some (Some (untitled (reading 0 w)))
       /\ exists saved, stored w' !! untitled (reading 0 w) = Some saved
                        /\ content saved = Some (c :: x)))
  /\ (forall e, completion save w0 = Throw e ->
      completion initAutoSave w = Throw e
      /\ timers w' = ∅
      /\ interval <$> autoSaveManager w' = Some None).
Proof.
  intros Ht w0 w'.
  assert (Hm0 : autoSaveManager w0 = Some (constructor None)) by reflexivity.
  assert (Ho0 : timers_owned w0).
  { intros id [d Hid]. cbn in Hid. rewrite Ht in Hid. discriminate. }
  assert (Hrun : initAutoSave w = start w0).
  { unfold initAutoSave. rewrite bind_run. unfold modify at 1.
    fold w0. apply (invoke_run start w0 _ Hm0). }
  assert (Hafter : w' = after start w0)
    by (unfold w', after; now rewrite Hrun).
  assert (Hcomp : completion initAutoSave w = completion start w0)
    by (unfold completion; now rewrite Hrun).
  rewrite Hafter, Hcomp. split.
  - intros Hs.
    destruct (start_arms w0 _ Hm0 Ho0 Hs)
      as (S1 & S2 & _ & S4 & S5 & S6 & _ & _ & S9).
    split; [exact S1|]. split; [exact S2|]. split; [exact S4|].
    split; [exact S5|]. split.
    + intros Hc. rewrite S6, S9. unfold after.
      now rewrite (save_empty w0 Hc).
    + intros c x Hc.
      pose proof (save_normal_readable w0 _ c x Hm0 Hc Hs) as Hr0.
      destruct (save_on_store w0 _ (stored w) c x Hm0 Hc
                  (readable_getSavedFiles_normal w0 Hr0))
        as (saved & m' & t & _ & Hcs & Hst & Hm' & Hn & _).
      unfold fileName_at in Hst, Hn. cbn in Hst, Hn.
      change (reading 0 w0) with (reading 0 w) in Hst, Hn.
      rewrite assign_property_insert in Hst
        by (left; apply untitled_not_PROTO).
      rewrite S9. unfold stored at 1. rewrite S6, Hst.
      unfold currentFileName_of. rewrite Hm'. cbn. rewrite Hn.
      split; [reflexivity|]. exists saved. now rewrite lookup_insert_eq.
  - intros e He. exact (start_aborts w0 _ e Hm0 Ho0 He).
Qed.

Lemma initAutoSave_starts_the_loop_witness :
  timers (after initAutoSave (with_manager None fresh_world))
  = {[1%positive := DEFAULT_INTERVAL]}.
Proof.
  exact (proj1 (proj2 (proj1 (initAutoSave_starts_the_loop
                                (with_manager None fresh_world) eq_refl)
                         eq_refl))).
Defined.

Lemma delays_keeps {A : Type} (method : JS A) :
  keeps_timers method -> preserves delays_set method.
Proof.
  intros Hk w (m & Hm & Hz & Hd). specialize (Hk (timer_state w) w eq_refl).
  unfold timer_state in Hk. injection Hk as Ht _ _ Hs.
  rewrite Hm in Hs. cbn in Hs.
  destruct (autoSaveManager (after method w)) as [m'|] eqn:Hm'; [|discriminate].
  injection Hs as Hs. exists m'. rewrite Hs, Ht. now repeat split.
Qed.

Lemma delays_constructed w : constructed w -> delays_set w.
Proof.
  intros [[o Hm] Ht]. exists (constructor o). split; [exact Hm|]. split.
  - destruct o as [i|]; cbn; [|discriminate].
    destruct (Z.eqb_spec i 0); [discriminate | assumption].
  - intros id delay Hid. rewrite Ht in Hid. discriminate.
Qed.



(** ** Opening and renaming, composed *)

(** [openFile(name)] of a file of the store returns normally with the
    file's content in the buffer ([undefined] when the file has none) and
    the manager, if there is one, bound to the trimmed [name] (left as it
    is when [name] is blank).  It only reads the store: the stored item,
    and with it the file's [lastOpenTime], is not touched, and neither are
    the timers. *)
Theorem openFile_loads_without_writing
    (w : World) (files : FileStore) (file : FileRecord) (fileName : jsstring) :
  completion getSavedFiles w = Normal files ->
  files !! fileName = Some file ->
  let w' := after (openFile fileName) w in
  completion (openFile fileName) w = Normal tt
  /\ editorBuffer w' = content file
  /\ md_editor_files w' = md_editor_files w
  /\ stored w' !! fileName = Some file
  /\ timer_state w' = timer_state w
  /\ (~ blank fileName ->
      currentFileName_of w' = (fun _ => Some (JSString.trim fileName))
                                <$> autoSaveManager w)
  /\ (blank fileName -> currentFileName_of w' = currentFileName_of w).
Proof.
  intros Hfiles Hfile w'.
  destruct (getSavedFiles_stored w files Hfiles) as [Hstored _].
  pose proof (keeps_openFile fileName (timer_state w) w eq_refl) as Hk.
  fold w' in Hk.
  pose proof (openFile_run w files fileName Hfiles
                (lookup_property_own_defined _ _ _ Hfile)) as Hrun.
  rewrite (lookup_property_own _ _ _ Hfile) in Hrun. cbn [spread] in Hrun.
  assert (Hw' : w' = after (setFileName fileName) (with_buffer (content file) w))
    by (unfold w', after at 1; now rewrite Hrun).
  assert (Hst : md_editor_files w' = md_editor_files w)
    by (rewrite Hw'; now rewrite (proj1 (setFileName_frame _ _))).
  split; [unfold completion; now rewrite Hrun|].
  split; [rewrite Hw'; now rewrite (proj2 (setFileName_frame _ _))|].
  split; [exact Hst|].
  split; [unfold stored in *; rewrite Hst, Hstored; exact Hfile|].
  split; [exact Hk|].
  unfold blank, currentFileName_of. rewrite Hw'. unfold after.
  rewrite setFileName_run. cbn [snd].
  destruct (JSString.truthy (JSString.trim fileName)) eqn:Ht; cbn.
  - apply truthy_true in Ht. split; [|contradiction].
    intros _. now destruct (autoSaveManager w).
  - apply truthy_false in Ht. split; [contradiction | reflexivity].
Qed.

Lemma openFile_loads_without_writing_witness :
  editorContent (after (openFile (JSString.of_ascii "b")) two_files_world)
  = JSString.of_ascii "beta".
Proof.
  exact (proj2 (editorContent_cons _ 98%N (JSString.of_ascii "eta"))
           (proj1 (proj2
              (openFile_loads_without_writing two_files_world
                 (<[JSString.of_ascii "a" := record_a]>
                    {[JSString.of_ascii "b" := record_b]})
                 record_b (JSString.of_ascii "b") eq_refl eq_refl)))).
Defined.

Lemma renameFile_frame w files oldName newName :
  completion getSavedFiles w = Normal files ->
  lookup_property files oldName <> Undefined ->
  oldName <> newName ->
  editorBuffer (after (renameFile oldName newName) w) = editorBuffer w.
Proof.
  intros Hfiles Hold Hne. unfold after at 1.
  rewrite (renameFile_run w files oldName newName Hfiles Hold Hne).
  cbv zeta. cbn [snd].
  destruct (autoSaveManager w) as [m|]; [|reflexivity].
  destruct (decide _);
    rewrite ?(proj2 (setFileName_frame _ _)), (proj2 (getFileName_frame _));
    reflexivity.
Qed.

Lemma renameFile_binds w m files oldName newName :
  autoSaveManager w = Some m ->
  completion getSavedFiles w = Normal files ->
  lookup_property files oldName <> Undefined ->
  oldName <> newName ->
  currentFileName_of (after (renameFile oldName newName) w)
  = Some (Some (if decide (fileName_at (reading 1 w) m = oldName)
                then if JSString.truthy (JSString.trim newName)
                     then JSString.trim newName
                     else fileName_at (reading 1 w) m
                else fileName_at (reading 1 w) m)).
Proof.
  intros Hm Hfiles Hold Hne. unfold after.
  rewrite (renameFile_run w files oldName newName Hfiles Hold Hne).
  cbv zeta. cbn [snd]. rewrite Hm.
  exact (rebound_currentFileName
           (with_files
              (Some (FilesText (renamed files oldName newName (reading 0 w))))
              (with_clockReads (S (clockReads w)) w))
           m oldName newName Hm).
Qed.

(** Rename, then open: after a [renameFile(oldName, newName)] that has
    returned [true] for a file [oldName] of the store, with [newName] a
    name under which the assignment stores (any but a [__proto__] that
    the store does not have), [openFile(newName)] loads the content the
    file had under its old name; [openFile(oldName)] does nothing, unless
    [oldName] is a name inherited from [Object.prototype]. *)
Theorem renameFile_then_openFile
    (w : World) (files : FileStore) (file : FileRecord)
    (oldName newName : jsstring) :
  completion getSavedFiles w = Normal files ->
  files !! oldName = Some file ->
  newName <> oldName ->
  newName <> PROTO \/ is_Some (files !! newName) ->
  completion (renameFile oldName newName) w = Normal true ->
  let w' := after (renameFile oldName newName) w in
  completion (openFile newName) w' = Normal tt
  /\ editorBuffer (after (openFile newName) w') = content file
  /\ (oldName ∉ Object_prototype_names ->
      openFile oldName w' = (Normal tt, w')).
Proof.
  intros Hfiles Hold Hne Hnew _ w'.
  assert (Hne' : oldName <> newName) by congruence.
  pose proof (renameFile_storage w files oldName newName Hfiles
                (lookup_property_own_defined _ _ _ Hold) Hne') as Hst.
  fold w' in Hst.
  rewrite (renamed_own files oldName newName file _ Hold Hnew) in Hst.
  set (files' := delete oldName
                   (<[newName := with_saveTime (reading 0 w) file]> files)) in *.
  assert (Hfiles' : completion getSavedFiles w' = Normal files')
    by (unfold completion; now rewrite getSavedFiles_run, Hst).
  assert (Hnew' : files' !! newName = Some (with_saveTime (reading 0 w) file)).
  { unfold files'. rewrite lookup_delete_ne by congruence.
    apply lookup_insert_eq. }
  assert (Hgone : files' !! oldName = None) by apply lookup_delete_eq.
  unfold completion, after.
  rewrite (openFile_run w' files' newName Hfiles'
             (lookup_property_own_defined _ _ _ Hnew')).
  rewrite (lookup_property_own _ _ _ Hnew'). cbn [fst snd spread].
  split; [reflexivity|]. split.
  - now rewrite (proj2 (setFileName_frame _ _)).
  - intros Hnot. apply (openFile_absent w' files'); [exact Hfiles'|].
    now apply lookup_property_undefined.
Qed.

Lemma renameFile_then_openFile_witness :
  editorBuffer
    (after (openFile (JSString.of_ascii "c"))
       (after (renameFile (JSString.of_ascii "a") (JSString.of_ascii "c"))
          two_files_world))
  = Some (JSString.of_ascii "alpha").
Proof.
  assert (Hne : JSString.of_ascii "c" <> JSString.of_ascii "a") by discriminate.
  assert (Hp : JSString.of_ascii "c" <> PROTO) by discriminate.
  exact (proj1 (proj2
           (renameFile_then_openFile two_files_world
              (<[JSString.of_ascii "a" := record_a]>
                 {[JSString.of_ascii "b" := record_b]})
              record_a (JSString.of_ascii "a") (JSString.of_ascii "c")
              eq_refl eq_refl Hne (or_introl Hp) eq_refl))).
Defined.

(** What the manager and the store look like after the current file has
    been renamed. *)
Lemma renameFile_current w m files file oldName newName c x :
  autoSaveManager w = Some m ->
  currentFileName m = Some oldName -> oldName <> [] ->
  editorContent w = c :: x ->
  completion getSavedFiles w = Normal files ->
  files !! oldName = Some file ->
  newName <> oldName ->
  newName <> PROTO \/ is_Some (files !! newName) ->
  let w1 := after (renameFile oldName newName) w in
  let files1 := delete oldName
                  (<[newName := with_saveTime (reading 0 w) file]> files) in
  completion getSavedFiles w1 = Normal files1
  /\ editorContent w1 = c :: x
  /\ exists m1, autoSaveManager w1 = Some m1
     /\ currentFileName m1
        = Some (if JSString.truthy (JSString.trim newName)
                then JSString.trim newName else oldName).
Proof.
  intros Hm Hn Hnil Hc Hfiles Hold Hne Hnew w1 files1.
  assert (Hne' : oldName <> newName) by congruence.
  pose proof (lookup_property_own_defined _ _ _ Hold) as Hdef.
  pose proof (renameFile_storage w files oldName newName Hfiles Hdef Hne')
    as Hst.
  pose proof (renameFile_frame w files oldName newName Hfiles Hdef Hne')
    as Hc1.
  pose proof (renameFile_binds w m files oldName newName Hm Hfiles Hdef Hne')
    as Hb.
  rewrite (renamed_own files oldName newName file _ Hold Hnew) in Hst.
  fold w1 in Hst, Hc1, Hb. fold files1 in Hst.
  rewrite (fileName_at_set _ m oldName Hn Hnil) in Hb.
  destruct (decide (oldName = oldName)); [|contradiction].
  split; [unfold completion; now rewrite getSavedFiles_run, Hst|].
  split; [unfold editorContent in *; now rewrite Hc1|].
  unfold currentFileName_of in Hb.
  destruct (autoSaveManager w1) as [m1|]; [|discriminate].
  exists m1. split; [reflexivity|]. cbn in Hb. congruence.
Qed.

(** Renaming the current file to a trimmed, non-empty name (any but a
    [__proto__] that the store does not have) keeps manager and store in
    step: once [renameFile] has returned [true] the manager is bound to
    [newName], and the next [save()], when it returns normally, has
    overwritten the record under [newName] with the buffer; no record
    under [oldName] comes back and no file is added. *)
Theorem renameFile_current_then_save
    (w : World) (m : AutoSaveManager) (files : FileStore) (file : FileRecord)
    (oldName newName : jsstring) (c : N) (x : jsstring) :
  autoSaveManager w = Some m ->
  currentFileName m = Some oldName -> oldName <> [] ->
  editorContent w = c :: x ->
  completion getSavedFiles w = Normal files ->
  files !! oldName = Some file ->
  newName <> oldName ->
  trimmed newName ->
  newName <> PROTO \/ is_Some (files !! newName) ->
  let w1 := after (renameFile oldName newName) w in
  let w2 := after save w1 in
  completion (renameFile oldName newName) w = Normal true ->
  completion save w1 = Normal tt ->
  currentFileName_of w1 = Some (Some newName)
  /\ (exists saved, stored w2 !! newName = Some saved
                    /\ content saved = Some (c :: x))
  /\ stored w2 !! oldName = None
  /\ dom (stored w2) = dom (stored w1).
Proof.
  intros Hm Hn Hnil Hc Hfiles Hold Hne [Htrim Hnew] Hp w1 w2 _ _.
  destruct (renameFile_current w m files file oldName newName c x
              Hm Hn Hnil Hc Hfiles Hold Hne Hp)
    as (Hfiles1 & Hc1 & m1 & Hm1 & Hn1).
  fold w1 in Hfiles1, Hc1, Hm1.
  rewrite Htrim in Hn1. apply truthy_true in Hnew. rewrite Hnew in Hn1.
  apply truthy_true in Hnew.
  destruct (save_on_store w1 m1 _ c x Hm1 Hc1 Hfiles1)
    as (saved & m2 & t & _ & Hcs & Hst2 & _).
  rewrite (fileName_at_set _ m1 newName Hn1 Hnew) in Hst2. fold w2 in Hst2.
  rewrite assign_property_insert in Hst2
    by (right; rewrite lookup_delete_ne by congruence;
        rewrite lookup_insert_eq; eauto).
  destruct (getSavedFiles_stored w1 _ Hfiles1) as [Hstored1 _].
  split; [unfold currentFileName_of; rewrite Hm1; cbn; now rewrite Hn1|].
  rewrite Hstored1. unfold stored. rewrite Hst2.
  repeat split.
  - exists saved. now rewrite lookup_insert_eq.
  - rewrite lookup_insert_ne by congruence. apply lookup_delete_eq.
  - rewrite dom_insert_L, dom_delete_L, dom_insert_L.
    apply set_eq. intros k. rewrite !elem_of_union, elem_of_difference,
      elem_of_union, !elem_of_singleton.
    destruct (decide (k = newName)) as [->|]; [|tauto].
    split; [intros _|tauto]. split; [now left | congruence].
Qed.

Lemma renameFile_current_then_save_witness :
  currentFileName_of
    (after (renameFile (JSString.of_ascii "a") (JSString.of_ascii "c"))
       running_on_a_world)
  = Some (Some (JSString.of_ascii "c")).
Proof.
  assert (Hnil : JSString.of_ascii "a" <> []) by discriminate.
  assert (Hne : JSString.of_ascii "c" <> JSString.of_ascii "a") by discriminate.
  assert (Hc : trimmed (JSString.of_ascii "c"))
    by (split; [reflexivity | discriminate]).
  assert (Hp : JSString.of_ascii "c" <> PROTO) by discriminate.
  exact (proj1
           (renameFile_current_then_save running_on_a_world
              {| interval := Some 1%positive;
                 saveInterval := DEFAULT_INTERVAL;
                 currentFileName := Some (JSString.of_ascii "a") |}
              (<[JSString.of_ascii "a" := record_a]>
                 {[JSString.of_ascii "b" := record_b]})
              record_a (JSString.of_ascii "a") (JSString.of_ascii "c")
              104%N (JSString.of_ascii "ello")
              eq_refl eq_refl Hnil eq_refl eq_refl eq_refl Hne Hc
              (or_introl Hp) eq_refl eq_refl)).
Defined.

Lemma blank_not_PROTO name : blank name -> name <> PROTO.
Proof. intros Hb ->. discriminate Hb. Qed.

(** Renaming the current file to a blank name (empty or white space
    only): once [renameFile] has returned [true], the record is under
    that blank key, but the manager could not be rebound and still names
    [oldName]; the next [save()], when it returns normally, then writes a
    fresh record under [oldName] (a name other than [__proto__]), so the
    store ends up with both. *)
Theorem renameFile_to_blank_name
    (w : World) (m : AutoSaveManager) (files : FileStore) (file : FileRecord)
    (oldName newName : jsstring) (c : N) (x : jsstring) :
  autoSaveManager w = Some m ->
  currentFileName m = Some oldName -> oldName <> [] -> oldName <> PROTO ->
  editorContent w = c :: x ->
  completion getSavedFiles w = Normal files ->
  files !! oldName = Some file ->
  newName <> oldName ->
  blank newName ->
  let w1 := after (renameFile oldName newName) w in
  let w2 := after save w1 in
  completion (renameFile oldName newName) w = Normal true ->
  completion save w1 = Normal tt ->
  currentFileName_of w1 = Some (Some oldName)
  /\ stored w1 !! oldName = None
  /\ (exists moved, stored w1 !! newName = Some moved
                    /\ content moved = content file
                    /\ stored w2 !! newName = Some moved)
  /\ (exists saved, stored w2 !! oldName = Some saved
                    /\ content saved = Some (c :: x)).
Proof.
  intros Hm Hn Hnil Hproto Hc Hfiles Hold Hne Hblank w1 w2 _ _.
  assert (Hne' : oldName <> newName) by congruence.
  destruct (renameFile_current w m files file oldName newName c x
              Hm Hn Hnil Hc Hfiles Hold Hne
              (or_introl (blank_not_PROTO newName Hblank)))
    as (Hfiles1 & Hc1 & m1 & Hm1 & Hn1).
  fold w1 in Hfiles1, Hc1, Hm1.
  unfold blank in Hblank. rewrite Hblank in Hn1. cbn in Hn1.
  destruct (save_on_store w1 m1 _ c x Hm1 Hc1 Hfiles1)
    as (saved & m2 & t & _ & Hcs & Hst2 & _).
  rewrite (fileName_at_set _ m1 oldName Hn1 Hnil) in Hst2. fold w2 in Hst2.
  rewrite assign_property_insert in Hst2 by now left.
  destruct (getSavedFiles_stored w1 _ Hfiles1) as [Hstored1 _].
  split; [unfold currentFileName_of; rewrite Hm1; cbn; now rewrite Hn1|].
  rewrite Hstored1. unfold stored. rewrite Hst2.
  split; [apply lookup_delete_eq|]. split.
  - exists (with_saveTime (reading 0 w) file).
    rewrite lookup_insert_ne by congruence.
    rewrite lookup_delete_ne by congruence.
    rewrite lookup_insert_eq. now repeat split.
  - exists saved. now rewrite lookup_insert_eq.
Qed.

Lemma renameFile_to_blank_name_witness :
  currentFileName_of
    (after (renameFile (JSString.of_ascii "a") (JSString.of_ascii "  "))
       running_on_a_world)
  = Some (Some (JSString.of_ascii "a")).
Proof.
  assert (Hnil : JSString.of_ascii "a" <> []) by discriminate.
  assert (Hp : JSString.of_ascii "a" <> PROTO) by discriminate.
  assert (Hne : JSString.of_ascii "  " <> JSString.of_ascii "a") by discriminate.
  assert (Hb : blank (JSString.of_ascii "  ")) by reflexivity.
  exact (proj1
           (renameFile_to_blank_name running_on_a_world
              {| interval := Some 1%positive;
                 saveInterval := DEFAULT_INTERVAL;
                 currentFileName := Some (JSString.of_ascii "a") |}
              (<[JSString.of_ascii "a" := record_a]>
                 {[JSString.of_ascii "b" := record_b]})
              record_a (JSString.of_ascii "a") (JSString.of_ascii "  ")
              104%N (JSString.of_ascii "ello")
              eq_refl eq_refl Hnil Hp eq_refl eq_refl eq_refl Hne Hb
              eq_refl eq_refl)).
Defined.

(** ** The file-list component *)

Lemma loadFiles_run w : FileList.loadFiles w = getSavedFiles w.
Proof.
  rewrite getSavedFiles_run.
  unfold FileList.loadFiles, localStorage_getItem, gets. rewrite bind_run.
  now destruct (md_editor_files w) as [[]|].
Qed.

Lemma loadFiles_readable w :
  readable w -> FileList.loadFiles w = (Normal (stored w), w).
Proof.
  intros Hr. rewrite loadFiles_run.
  now apply getSavedFiles_normal, readable_getSavedFiles_normal.
Qed.

(** The list view and the file manager read the store alike: on every
    world [loadFiles()] yields what [getSavedFiles()] yields, the empty
    mapping for a missing or empty item and the same error for a text
    that is not JSON, and neither changes the world. *)
Theorem loadFiles_like_getSavedFiles (w : World) :
  FileList.loadFiles w = getSavedFiles w
  /\ after FileList.loadFiles w = w
  /\ (md_editor_files w = None \/ md_editor_files w = Some EmptyText ->
      completion FileList.loadFiles w = Normal ∅)
  /\ (md_editor_files w = Some Malformed ->
      completion FileList.loadFiles w = Throw SyntaxError).
Proof.
  unfold completion, after. rewrite loadFiles_run, getSavedFiles_run.
  repeat split.
  - now intros [-> | ->].
  - now intros ->.
Qed.

Lemma loadFiles_like_getSavedFiles_witness :
  completion FileList.loadFiles corrupt_world = Throw SyntaxError.
Proof.
  exact (proj2 (proj2 (proj2 (loadFiles_like_getSavedFiles corrupt_world)))
           eq_refl).
Defined.

Lemma parse_item_readable w w0 :
  readable w ->
  JSON_parse (match md_editor_files w with
              | Some text => if text_truthy text then text else FilesText ∅
              | None => FilesText ∅
              end) w0
  = (Normal (stored w), w0).
Proof.
  unfold readable, stored.
  destruct (md_editor_files w) as [[]|]; try reflexivity. congruence.
Qed.

Lemma FileList_renameFile_run w m prompt c s :
  autoSaveManager w = Some m ->
  readable w ->
  let oldName := fileName_at (reading 0 w) m in
  prompt oldName = Some (c :: s) ->
  c :: s <> oldName ->
  let files' :=
    delete oldName
      (assign_value (stored w) (c :: s) (lookup_property (stored w) oldName)) in
  FileList.renameFile prompt w
  = (Normal (Some files'),
     after (setFileName (c :: s))
       (with_files (Some (FilesText files')) (after getFileName w))).
Proof.
  intros Hm Hr oldName Hp Hne files'.
  destruct (getFileName_binds w m Hm) as (m1 & Hm1 & _).
  destruct (getFileName_frame w) as [Hf1 _].
  assert (Hget : getFileName w = (Normal oldName, after getFileName w))
    by (unfold after; now rewrite (getFileName_run w m Hm)).
  set (w1 := after getFileName w) in *.
  assert (Hstored1 : stored w1 = stored w) by (unfold stored; now rewrite Hf1).
  assert (Hr1 : readable w1) by (unfold readable; now rewrite Hf1).
  unfold FileList.renameFile.
  rewrite bind_run, (invoke_run getFileName w m Hm), Hget. rewrite Hp.
  destruct (decide (c :: s = oldName)); [contradiction|].
  rewrite bind_run. unfold localStorage_getItem at 1, gets at 1.
  rewrite bind_run, (parse_item_readable w1 w1 Hr1), Hstored1.
  cbv zeta. fold files'.
  unfold localStorage_setItem at 1, modify at 1. unfold JSON_stringify.
  set (w2 := with_files (Some (FilesText files')) w1).
  assert (Hm2 : autoSaveManager w2 = Some m1) by exact Hm1.
  rewrite bind_run. cbv beta iota. fold w2.
  rewrite bind_run, (invoke_run _ w2 m1 Hm2), setFileName_run.
  rewrite bind_run.
  assert (Hload : forall w3, md_editor_files w3 = Some (FilesText files') ->
                             FileList.loadFiles w3 = (Normal files', w3)).
  { intros w3 H3. rewrite loadFiles_run, getSavedFiles_run. now rewrite H3. }
  unfold after. rewrite setFileName_run. cbn [snd].
  destruct (JSString.truthy (JSString.trim (c :: s)));
    now rewrite Hload by reflexivity.
Qed.

Lemma FileList_renameFile_after w m c s files' :
  autoSaveManager w = Some m ->
  let oldName := fileName_at (reading 0 w) m in
  let w' := after (setFileName (c :: s))
              (with_files (Some (FilesText files')) (after getFileName w)) in
  md_editor_files w' = Some (FilesText files')
  /\ editorBuffer w' = editorBuffer w
  /\ currentFileName_of w'
     = Some (Some (if JSString.truthy (JSString.trim (c :: s))
                   then JSString.trim (c :: s) else oldName)).
Proof.
  intros Hm oldName w'.
  destruct (getFileName_binds w m Hm) as (m1 & Hm1 & Hn1 & _).
  destruct (getFileName_frame w) as [_ Hc1].
  assert (Hw' : w' = if JSString.truthy (JSString.trim (c :: s))
                     then with_manager
                            (Some (with_currentFileName
                                     (Some (JSString.trim (c :: s))) m1))
                            (with_files (Some (FilesText files'))
                               (after getFileName w))
                     else with_files (Some (FilesText files'))
                            (after getFileName w)).
  { unfold w'. unfold after at 1. rewrite setFileName_run. cbn [snd].
    destruct (JSString.truthy (JSString.trim (c :: s))); [|reflexivity].
    cbn [autoSaveManager with_files]. now rewrite Hm1. }
  rewrite Hw'. unfold currentFileName_of.
  destruct (JSString.truthy (JSString.trim (c :: s))); cbn;
    rewrite ?Hm1; cbn; rewrite ?Hn1, ?Hc1; now repeat split.
Qed.

(** What a [renameFile()] of the list that returns has done, when the
    user entered a non-empty name other than the current one. *)
Lemma FileList_renameFile_returns w m prompt newName r :
  autoSaveManager w = Some m ->
  readable w ->
  let oldName := fileName_at (reading 0 w) m in
  prompt oldName = Some newName ->
  newName <> [] ->
  newName <> oldName ->
  completion (FileList.renameFile prompt) w = Normal r ->
  let w' := after (FileList.renameFile prompt) w in
  let files' :=
    delete oldName
      (assign_value (stored w) newName (lookup_property (stored w) oldName)) in
  r = Some files'
  /\ stored w' = files'
  /\ completion getSavedFiles w' = Normal files'
  /\ editorBuffer w' = editorBuffer w
  /\ currentFileName_of w'
     = Some (Some (if JSString.truthy (JSString.trim newName)
                   then JSString.trim newName else oldName)).
Proof.
  intros Hm Hr oldName Hp Hnil Hne Hret w' files'.
  destruct newName as [|c s]; [contradiction|].
  pose proof (FileList_renameFile_run w m prompt c s Hm Hr Hp Hne) as Hrun.
  cbv zeta in Hrun. fold oldName in Hrun. fold files' in Hrun.
  destruct (FileList_renameFile_after w m c s files' Hm)
    as (Hst & Hc & Hn).
  assert (Hw' : w' = after (setFileName (c :: s))
                       (with_files (Some (FilesText files'))
                          (after getFileName w)))
    by (unfold w'; unfold after at 1; now rewrite Hrun).
  unfold completion in Hret. rewrite Hrun in Hret. cbn in Hret.
  rewrite Hw'. unfold completion, stored.
  rewrite getSavedFiles_run, Hst.
  repeat split; try assumption. congruence.
Qed.

(** The list's [renameFile()], when the user enters a non-empty name
    other than the current one, the current file has a record, and the
    call returns: the record is moved to the new name exactly as it is
    (its [saveTime] is not refreshed here), the entry under the old name
    is removed, the manager is bound to the trimmed new name (kept on the
    old one when the new name is blank), and the reloaded list is the
    persisted store.  The new name [__proto__] is the exception when the
    store has no file of that name: the record is then lost, not
    moved. *)
Theorem FileList_renameFile_moves_record
    (w : World) (m : AutoSaveManager) (prompt : jsstring -> option jsstring)
    (newName : jsstring) (file : FileRecord)
    (r : option FileStore) :
  autoSaveManager w = Some m ->
  readable w ->
  let oldName := fileName_at (reading 0 w) m in
  prompt oldName = Some newName ->
  newName <> [] ->
  newName <> oldName ->
  stored w !! oldName = Some file ->
  completion (FileList.renameFile prompt) w = Normal r ->
  let w' := after (FileList.renameFile prompt) w in
  (newName <> PROTO \/ is_Some (stored w !! newName) ->
   r = Some (delete oldName (<[newName := file]> (stored w)))
   /\ completion getSavedFiles w'
      = Normal (delete oldName (<[newName := file]> (stored w)))
   /\ stored w' !! newName = Some file)
  /\ (newName = PROTO -> stored w !! newName = None ->
      r = Some (delete oldName (stored w))
      /\ stored w' !! newName = None)
  /\ stored w' !! oldName = None
  /\ (forall other, other <> oldName -> other <> newName ->
      stored w' !! other = stored w !! other)
  /\ editorBuffer w' = editorBuffer w
  /\ currentFileName_of w'
     = Some (Some (if JSString.truthy (JSString.trim newName)
                   then JSString.trim newName else oldName)).
Proof.
  intros Hm Hr oldName Hp Hnil Hne Hfile Hret w'.
  destruct (FileList_renameFile_returns w m prompt newName r
              Hm Hr Hp Hnil Hne Hret) as (Hres & Hst & Hread & Hc & Hn).
  fold oldName w' in Hres, Hst, Hread, Hc, Hn.
  rewrite (lookup_property_own _ _ _ Hfile) in Hres, Hst, Hread.
  cbn [assign_value] in Hres, Hst, Hread.
  split; [|split; [|split; [|split; [|split]]]]; try assumption.
  - intros Hnew.
    rewrite (assign_property_insert _ _ _ Hnew) in Hres, Hst, Hread.
    split; [exact Hres|]. split; [exact Hread|].
    rewrite Hst, lookup_delete_ne by congruence. apply lookup_insert_eq.
  - intros Hp' Hno. rewrite Hp' in *.
    rewrite (assign_property_PROTO _ _ Hno) in Hres, Hst.
    split; [exact Hres|].
    rewrite Hst, lookup_delete_ne by congruence. exact Hno.
  - rewrite Hst. apply lookup_delete_eq.
  - intros other Ho Hother. rewrite Hst, lookup_delete_ne by congruence.
    now apply lookup_assign_property_ne.
Qed.

Lemma FileList_renameFile_moves_record_witness :
  stored (after (FileList.renameFile (fun _ => Some (JSString.of_ascii "c")))
            running_on_a_world) !! JSString.of_ascii "c"
  = Some record_a.
Proof.
  assert (Hr : readable running_on_a_world) by discriminate.
  assert (Hnil : JSString.of_ascii "c" <> []) by discriminate.
  assert (Hne : JSString.of_ascii "c" <> JSString.of_ascii "a") by discriminate.
  assert (Hp : JSString.of_ascii "c" <> PROTO) by discriminate.
  exact (proj2 (proj2 (proj1
           (FileList_renameFile_moves_record running_on_a_world
              {| interval := Some 1%positive;
                 saveInterval := DEFAULT_INTERVAL;
                 currentFileName := Some (JSString.of_ascii "a") |}
              (fun _ => Some (JSString.of_ascii "c"))
              (JSString.of_ascii "c") record_a
              (Some (delete (JSString.of_ascii "a")
                       (<[JSString.of_ascii "c" := record_a]>
                          (stored running_on_a_world))))
              eq_refl Hr eq_refl Hnil Hne eq_refl eq_refl)
           (or_introl Hp)))).
Defined.



(** The list's [renameFile()] does nothing to the store when the dialog
    is cancelled or the answer is empty or the current name: the only
    effect of the call is that of [getFileName()], which gives a manager
    without a current file its generated name. *)
Theorem FileList_renameFile_declined
    (w : World) (m : AutoSaveManager) (prompt : jsstring -> option jsstring) :
  autoSaveManager w = Some m ->
  let oldName := fileName_at (reading 0 w) m in
  prompt oldName = None \/ prompt oldName = Some [] \/ prompt oldName = Some oldName ->
  FileList.renameFile prompt w = (Normal None, after getFileName w)
  /\ md_editor_files (after (FileList.renameFile prompt) w) = md_editor_files w
  /\ currentFileName_of (after (FileList.renameFile prompt) w)
     = Some (Some oldName).
Proof.
  intros Hm oldName Hp.
  assert (Hget : getFileName w = (Normal oldName, after getFileName w))
    by (unfold after; now rewrite (getFileName_run w m Hm)).
  assert (Hrun : FileList.renameFile prompt w = (Normal None, after getFileName w)).
  { unfold FileList.renameFile.
    rewrite bind_run, (invoke_run getFileName w m Hm), Hget.
    destruct Hp as [-> | [-> | ->]]; try reflexivity.
    destruct oldName as [|c s] eqn:E; [reflexivity|].
    now destruct (decide (c :: s = c :: s)). }
  destruct (getFileName_binds w m Hm) as (m1 & Hm1 & Hn1 & _).
  assert (Hafter : after (FileList.renameFile prompt) w = after getFileName w)
    by (unfold after at 1; now rewrite Hrun).
  rewrite Hafter.
  split; [exact Hrun|]. split; [apply getFileName_frame|].
  unfold currentFileName_of. rewrite Hm1. cbn. now rewrite Hn1.
Qed.

Lemma FileList_renameFile_declined_witness :
  md_editor_files (after (FileList.renameFile (fun _ => None)) two_files_world)
  = md_editor_files two_files_world.
Proof.
  exact (proj1 (proj2
           (FileList_renameFile_declined two_files_world (constructor None)
              (fun _ => None) eq_refl (or_introl eq_refl)))).
Defined.



(** The list's [createNewFile()], with a manager on a readable storage:
    the buffer is emptied and the manager bound to the generated name,
    but the save it calls is skipped for the empty buffer, so the stored
    item is unchanged and the reloaded list is the store as it was; the
    new file is not in it unless a record of that name existed before. *)
Theorem FileList_createNewFile_lists_no_new_file
    (w : World) (m : AutoSaveManager) :
  autoSaveManager w = Some m ->
  readable w ->
  let w' := after FileList.createNewFile w in
  completion FileList.createNewFile w = Normal (stored w)
  /\ md_editor_files w' = md_editor_files w
  /\ editorContent w' = []
  /\ currentFileName_of w' = Some (Some (untitled (reading 0 w))).
Proof.
  intros Hm Hr w'.
  set (w1 := with_manager
               (Some (with_currentFileName (Some (untitled (reading 0 w))) m))
               (with_content [] (with_clockReads (S (clockReads w)) w))).
  assert (Hrun : FileList.createNewFile w = (Normal (stored w), w1)).
  { unfold FileList.createNewFile. rewrite bind_run. unfold new_Date at 1.
    cbv zeta. rewrite bind_run. unfold FileList.setValue, updateContent, modify.
    set (w0 := with_content [] (with_clockReads (S (clockReads w)) w)).
    assert (Hm0 : autoSaveManager w0 = Some m) by exact Hm.
    rewrite bind_run, (invoke_run _ w0 m Hm0), setFileName_run.
    change (clock w (clockReads w)) with (reading 0 w).
    rewrite trim_untitled.
    assert (Ht : JSString.truthy (untitled (reading 0 w)) = true)
      by (apply truthy_true, untitled_not_nil).
    rewrite Ht. rewrite Hm0. cbn [fmap option_fmap option_map]. fold w1.
    assert (Hm1 : autoSaveManager w1
                  = Some (with_currentFileName (Some (untitled (reading 0 w))) m))
      by reflexivity.
    rewrite bind_run, (invoke_run _ w1 _ Hm1), (save_empty w1 eq_refl).
    assert (Hr1 : readable w1) by exact Hr.
    now rewrite (loadFiles_readable w1 Hr1). }
  unfold w', completion, after. rewrite Hrun. now repeat split.
Qed.

Lemma FileList_createNewFile_lists_no_new_file_witness :
  completion FileList.createNewFile two_files_world
  = Normal (stored two_files_world).
Proof.
  assert (Hr : readable two_files_world) by discriminate.
  exact (proj1 (FileList_createNewFile_lists_no_new_file two_files_world
                  (constructor None) eq_refl Hr)).
Defined.
